(** * Whisper v5 message element ([whisper/whisper05/message.go])

    A shallow embedding of the message codec of the Whisper protocol:
    building an outbound plaintext (flags, padding, payload, signature),
    encrypting it, and the inverse steps on ingress.

    Bytes are [Byte.byte]; Go's [int] lengths and sizes are [Z]; a slice is
    a list whose capacity equals its length, so that an index or a slice
    expression out of range panics as in Go.  Cryptographic primitives and
    the parts of the package that live in other files are the fields of the
    class [Env]. *)

From Stdlib Require Import String ZArith List Lia Bool Uint63.
From coqutil Require Import Byte.
Import ListNotations.
Local Open Scope Z_scope.

(** ** Bytes and slices *)

Definition bytes := list byte.

Definition len {A} (l : list A) : Z := Z.of_nat (length l).

Definition byte_or (a b : byte) : byte :=
  byte.of_Z (Z.lor (byte.unsigned a) (byte.unsigned b)).

(** Go's [^b] on a [byte]. *)
Definition byte_not (a : byte) : byte :=
  byte.of_Z (Z.lxor (byte.unsigned a) 255).

Definition byte_is_zero (a : byte) : bool := byte.unsigned a =? 0.

(** [make([]byte, n)] *)
Definition make (n : Z) : bytes := repeat Byte.x00 (Z.to_nat n).

(** [copy(dst, src)]: the contents of [dst] afterwards. *)
Definition copy (dst src : bytes) : bytes :=
  firstn (length dst) (src ++ skipn (length src) dst).

(** What a Go function leaves behind: a value, or a run-time panic. *)
Inductive Outcome (A : Type) : Type :=
| Ok (a : A)
| Panic (msg : string).
Arguments Ok {A} a.
Arguments Panic {A} msg.

Definition obind {A B} (o : Outcome A) (k : A -> Outcome B) : Outcome B :=
  match o with
  | Ok a => k a
  | Panic m => Panic m
  end.

Declare Scope outcome_scope.
Delimit Scope outcome_scope with outcome.
Notation "x <-- c ;; k" := (obind c (fun x => k))
  (at level 61, c at next level, right associativity) : outcome_scope.
Notation "' pat <-- c ;; k" := (obind c (fun x => match x with pat => k end))
  (at level 61, pat pattern, c at next level, right associativity)
  : outcome_scope.

(** [s[i]] *)
Definition index (s : bytes) (i : Z) : Outcome byte :=
  if (0 <=? i) && (i <? len s)
  then Ok (nth (Z.to_nat i) s Byte.x00)
  else Panic "index out of range".

(** [s[lo:hi]] *)
Definition slice (s : bytes) (lo hi : Z) : Outcome bytes :=
  if (0 <=? lo) && (lo <=? hi) && (hi <=? len s)
  then Ok (firstn (Z.to_nat (hi - lo)) (skipn (Z.to_nat lo) s))
  else Panic "slice bounds out of range".

(** [s[lo:]] *)
Definition slice_from (s : bytes) (lo : Z) : Outcome bytes :=
  slice s lo (len s).

(** [s[0] = f s[0]], as in [self.Raw[0] |= flag]. *)
Definition update_first (f : byte -> byte) (s : bytes) : Outcome bytes :=
  match s with
  | b :: rest => Ok (f b :: rest)
  | [] => Panic "index out of range"
  end.

(** ** Constants

    The constant block of the package is declared in another file. *)

(** Modelled from the spec: constant [paddingMask], bits 0-1 of the flags
    byte hold padSizeLen. *)
Definition paddingMask : byte := byte.of_Z 3.

(** Modelled from the spec: constant [signatureFlag], bit 2 of the flags
    byte is the signed flag. *)
Definition signatureFlag : byte := byte.of_Z 4.

(** Modelled from the spec: constant [signatureLength] = 65. *)
Definition signatureLength : Z := 65.

(** Modelled from the spec: constant [aesKeyLength] = 32. *)
Definition aesKeyLength : Z := 32.

(** Modelled from the spec: constant [saltLength] = 12. *)
Definition saltLength : Z := 12.

(** Modelled from the spec: constant [padSizeLimitLower], called
    padSizeLowerLimit there, = 256. *)
Definition padSizeLimitLower : Z := 256.

(** Modelled from the spec: constant [padSizeLimitUpper], called
    padSizeUpperLimit there, = 256. *)
Definition padSizeLimitUpper : Z := 256.

(** Modelled from the spec: constant [msgMaxLength] = 262144. *)
Definition msgMaxLength : Z := 262144.

(** Modelled from the spec: constant [DefaultTTL] = 50 seconds. *)
Definition DefaultTTL : Z := 50.

(** Modelled from the spec: constant [EnvelopeVersion], the only version
    understood is 0. *)
Definition EnvelopeVersion : Z := 0.

(** Modelled from the spec: helper [bytesToIntLittleEndian], which decodes
    the little-endian size field; the result is a [uint64]. *)
Definition bytesToIntLittleEndian (b : bytes) : Z :=
  (fold_right (fun x acc => byte.unsigned x + 256 * acc) 0 b) mod 2 ^ 64.

(** ** Errors *)

Inductive error : Type :=
| errors_New (text : string)
| fmt_Errorf (format : string) (args : list Z).

(** The hash constructor handed to PBKDF2. *)
Inductive HashAlg : Type := sha256_New.

(** ** The surroundings of the message element

    [Domain] names the types the package takes from elsewhere; [Env] (below)
    the operations on them. *)

Class Domain : Type := {
  PrivateKey : Type;   (* a non-nil *ecdsa.PrivateKey *)
  PublicKey : Type;    (* a non-nil *ecdsa.PublicKey *)
  float64 : Type;
  Envelope : Type;     (* declared in envelope.go *)
  Block : Type;        (* cipher.Block *)
  AEAD : Type;         (* cipher.AEAD *)
  World : Type         (* the entropy pool and the wall clock *)
}.

Section Types.
Context {D : Domain}.

(** [TopicType] is a fixed array of four bytes. *)
Definition TopicType := bytes.

(** [common.Hash] is a fixed array of 32 bytes, its zero value all zero. *)
Definition common_Hash := bytes.
Definition common_Hash_zero : common_Hash := repeat Byte.x00 32.

Record MessageParams : Type := {
  TTL : Z;
  Src : option PrivateKey;
  Dst : option PublicKey;
  KeySym : option bytes;     (* [None] is the nil slice *)
  Topic : TopicType;
  WorkTime : Z;
  PoW : float64;
  Payload : bytes;
  Padding : option bytes
}.

Record SentMessage : Type := { Raw : bytes }.

Record ReceivedMessage : Type := {
  rRaw : bytes;
  rPayload : bytes;
  rPadding : bytes;
  rSignature : bytes;
  rPoW : float64;
  rSent : Z;
  rTTL : Z;
  rSrc : option PublicKey;
  rDst : option PublicKey;
  rTopic : TopicType;
  rTopicKeyHash : common_Hash;
  rEnvelopeHash : common_Hash;
  rEnvelopeVersion : Z
}.

Definition set_rRaw (m : ReceivedMessage) (v : bytes) : ReceivedMessage :=
  {| rRaw := v; rPayload := rPayload m; rPadding := rPadding m;
     rSignature := rSignature m; rPoW := rPoW m; rSent := rSent m;
     rTTL := rTTL m; rSrc := rSrc m; rDst := rDst m; rTopic := rTopic m;
     rTopicKeyHash := rTopicKeyHash m; rEnvelopeHash := rEnvelopeHash m;
     rEnvelopeVersion := rEnvelopeVersion m |}.

Definition set_rPayload (m : ReceivedMessage) (v : bytes) : ReceivedMessage :=
  {| rRaw := rRaw m; rPayload := v; rPadding := rPadding m;
     rSignature := rSignature m; rPoW := rPoW m; rSent := rSent m;
     rTTL := rTTL m; rSrc := rSrc m; rDst := rDst m; rTopic := rTopic m;
     rTopicKeyHash := rTopicKeyHash m; rEnvelopeHash := rEnvelopeHash m;
     rEnvelopeVersion := rEnvelopeVersion m |}.

Definition set_rPadding (m : ReceivedMessage) (v : bytes) : ReceivedMessage :=
  {| rRaw := rRaw m; rPayload := rPayload m; rPadding := v;
     rSignature := rSignature m; rPoW := rPoW m; rSent := rSent m;
     rTTL := rTTL m; rSrc := rSrc m; rDst := rDst m; rTopic := rTopic m;
     rTopicKeyHash := rTopicKeyHash m; rEnvelopeHash := rEnvelopeHash m;
     rEnvelopeVersion := rEnvelopeVersion m |}.

Definition set_rSignature (m : ReceivedMessage) (v : bytes) : ReceivedMessage :=
  {| rRaw := rRaw m; rPayload := rPayload m; rPadding := rPadding m;
     rSignature := v; rPoW := rPoW m; rSent := rSent m;
     rTTL := rTTL m; rSrc := rSrc m; rDst := rDst m; rTopic := rTopic m;
     rTopicKeyHash := rTopicKeyHash m; rEnvelopeHash := rEnvelopeHash m;
     rEnvelopeVersion := rEnvelopeVersion m |}.

Definition set_rSrc (m : ReceivedMessage) (v : option PublicKey) : ReceivedMessage :=
  {| rRaw := rRaw m; rPayload := rPayload m; rPadding := rPadding m;
     rSignature := rSignature m; rPoW := rPoW m; rSent := rSent m;
     rTTL := rTTL m; rSrc := v; rDst := rDst m; rTopic := rTopic m;
     rTopicKeyHash := rTopicKeyHash m; rEnvelopeHash := rEnvelopeHash m;
     rEnvelopeVersion := rEnvelopeVersion m |}.

Definition set_TTL (p : MessageParams) (v : Z) : MessageParams :=
  {| TTL := v; Src := Src p; Dst := Dst p; KeySym := KeySym p;
     Topic := Topic p; WorkTime := WorkTime p; PoW := PoW p;
     Payload := Payload p; Padding := Padding p |}.

End Types.

(** The operations the message element calls: the primitive layer
    ([crypto], [crypto/aes], [crypto/cipher], [crypto/rand], [pbkdf2]) and
    the helpers of the package declared in other files.  A Go function that
    returns [(value, err)] returns a pair here, [None] being the nil error. *)
Class Env {D : Domain} : Type := {
  (* crypto/rand: the bytes read (copied into the caller's buffer) *)
  crand_Read : Z -> World -> bytes * option error * World;
  crypto_Keccak256 : bytes -> bytes;
  crypto_Sign : bytes -> PrivateKey -> bytes * option error;
  (* may panic on a malformed signature, hence the recover in [Recover] *)
  crypto_SigToPub : bytes -> bytes -> Outcome (option PublicKey * option error);
  crypto_Encrypt : PublicKey -> bytes -> World -> bytes * option error * World;
  crypto_Decrypt : PrivateKey -> bytes -> bytes * option error;
  (* pbkdf2.Key(password, salt, iter, keyLen, h) *)
  pbkdf2_Key : bytes -> bytes -> Z -> Z -> HashAlg -> bytes;
  aes_NewCipher : bytes -> Block + error;
  cipher_NewGCM : Block -> AEAD + error;
  NonceSize : AEAD -> Z;
  (* aesgcm.Seal(nil, nonce, plaintext, nil) *)
  aead_Seal : AEAD -> bytes -> bytes -> bytes;
  (* aesgcm.Open(nil, nonce, ciphertext, nil) *)
  aead_Open : AEAD -> bytes -> bytes -> bytes * option error;
  (* whisper.go *)
  validatePublicKey : PublicKey -> bool;
  validateSymmetricKey : bytes -> bool;
  (* envelope.go; both read the clock *)
  NewEnvelope : Z -> TopicType -> bytes -> bytes -> SentMessage -> World -> Envelope * World;
  Envelope_Seal : Envelope -> MessageParams -> World -> Envelope * World
}.

(** ** Code that draws random bytes or reads the clock

    Such code runs in a state monad over [World] whose computations may
    panic. *)

Section Monad.
Context {D : Domain}.

Definition M (A : Type) : Type := World -> Outcome (A * World).

Definition mret {A} (a : A) : M A := fun w => Ok (a, w).

Definition mbind {A B} (c : M A) (k : A -> M B) : M B :=
  fun w =>
    match c w with
    | Ok (a, w') => k a w'
    | Panic m => Panic m
    end.

Definition lift {A} (o : Outcome A) : M A :=
  fun w =>
    match o with
    | Ok a => Ok (a, w)
    | Panic m => Panic m
    end.

Definition mpanic {A} (msg : string) : M A := fun _ => Panic msg.

(** A collaborator that returns normally. *)
Definition call {A} (f : World -> A * World) : M A := fun w => Ok (f w).

End Monad.

Declare Scope go_scope.
Delimit Scope go_scope with go.
Notation "x <- c ; k" := (mbind c (fun x => k))
  (at level 61, c at next level, right associativity) : go_scope.
Notation "' pat <- c ; k" := (mbind c (fun x => match x with pat => k end))
  (at level 61, pat pattern, c at next level, right associativity) : go_scope.

(** ** The message element *)

Section Message.
Context {D : Domain} {E : Env}.

(** [make([]byte, n)] where [n] is computed. *)
Definition make_checked (n : Z) : Outcome bytes :=
  if n <? 0 then Panic "makeslice: len out of range" else Ok (make n).

(** [crand.Read(buf)]: the buffer afterwards, and the error. *)
Definition readRandom (buf : bytes) : M (bytes * option error) :=
  fun w =>
    let '(rnd, err, w') := crand_Read (len buf) w in
    Ok ((copy buf rnd, err), w').

Definition isMessageSigned (flags : byte) : bool :=
  negb (byte_is_zero (byte.and flags signatureFlag)).

Definition isMessagePadded (flags : byte) : bool :=
  negb (byte_is_zero (byte.and flags paddingMask)).

Definition bytes_eqb (a b : bytes) : bool :=
  if list_eq_dec Byte.byte_eq_dec a b then true else false.

(** The two modes as properties of the fields they are read from. *)
Definition symmetricMode (m : ReceivedMessage) : Prop :=
  rTopicKeyHash m <> common_Hash_zero.

Definition asymmetricMode (m : ReceivedMessage) : Prop :=
  rDst m <> None.

Definition isSymmetricEncryption (self : ReceivedMessage) : bool :=
  negb (bytes_eqb (rTopicKeyHash self) common_Hash_zero).

Definition isAsymmetricEncryption (self : ReceivedMessage) : bool :=
  match rDst self with
  | Some _ => true
  | None => false
  end.

Definition DeriveOneTimeKey (key salt : bytes) (version : Z)
  : bytes * option error :=
  if version =? 0
  then (pbkdf2_Key key salt 16 aesKeyLength sha256_New, None)
  else ([], Some (fmt_Errorf "DeriveKey: invalid envelope version: %d" [version])).

(** [total] and [padChunk] of [appendPadding]. *)
Definition padTotal (params : MessageParams) : Z :=
  let total := len (Payload params) + 1 in
  match Src params with
  | Some _ => total + signatureLength
  | None => total
  end.

Definition padChunkOf (total : Z) : Z :=
  if total <=? padSizeLimitLower then padSizeLimitLower else padSizeLimitUpper.

Definition appendPadding (self : SentMessage) (params : MessageParams)
  : M SentMessage :=
  (let total := padTotal params in
   let padChunk := padChunkOf total in
   let odd := Z.rem total padChunk in
   if 0 <? odd then
     let padSize := padChunk - odd in
     if 255 <? padSize then
       mpanic "please fix the padding algorithm before releasing new version"
     else
       buf <- lift (make_checked padSize);
       tail <- lift (slice_from buf 1);
       '(tail, _) <- readRandom tail;
       let tail :=
         match Padding params with
         | Some p => copy tail p
         | None => tail
         end in
       (* buf[0] = byte(padSize) *)
       let buf := byte.of_Z padSize :: tail in
       raw <- lift (update_first (fun b => byte_or b (byte.of_Z 1))
                                 (Raw self ++ buf));
       mret {| Raw := raw |}
   else mret self)%go.

(** The pad length in the spec's words, to compare [appendPadding] with:
    [(target - (total mod target)) mod target], the target being 256. *)
Definition spec_padLength (params : MessageParams) : Z :=
  (256 - padTotal params mod 256) mod 256.

Definition NewSentMessage (params : MessageParams) : M SentMessage :=
  ('(buf, _) <- readRandom (make 1);
   flags <- lift (index buf 0);
   let flags := byte.and flags (byte_not paddingMask) in
   let flags := byte.and flags (byte_not signatureFlag) in
   let msg := {| Raw := [flags] |} in
   msg <- appendPadding msg params;
   mret {| Raw := Raw msg ++ Payload params |})%go.

Definition sign (self : SentMessage) (key : PrivateKey)
  : Outcome (SentMessage * option error) :=
  (flags <-- index (Raw self) 0;;
   if isMessageSigned flags then
     (* logged; the named result [err] is still nil *)
     Ok (self, None)
   else
     let hash := crypto_Keccak256 (Raw self) in
     let '(signature, err) := crypto_Sign hash key in
     match err with
     | Some _ =>
         raw <-- update_first (fun b => byte_or b signatureFlag)
                              (Raw self ++ signature);;
         Ok ({| Raw := raw |}, err)
     | None => Ok (self, err)
     end)%outcome.

Definition encryptAsymmetric (self : SentMessage) (key : PublicKey)
  : M (SentMessage * option error) :=
  if negb (validatePublicKey key) then
    mret (self, Some (fmt_Errorf
            "Invalid public key provided for asymmetric encryption" []))
  else
    fun w =>
      let '(encrypted, err, w') := crypto_Encrypt key (Raw self) w in
      match err with
      | None => Ok (({| Raw := encrypted |}, err), w')
      | Some _ => Ok ((self, err), w')
      end.

(** The results are [(salt, nonce, err)], named in the source and returned
    with whatever they hold at each [return]. *)
Definition encryptSymmetric (self : SentMessage) (key : bytes)
  : M (SentMessage * (bytes * bytes * option error)) :=
  (if negb (validateSymmetricKey key) then
     mret (self, ([], [], Some (fmt_Errorf
       "encryptSymmetric: invalid key provided for symmetric encryption" [])))
   else
     '(salt, err) <- readRandom (make saltLength);
     match err with
     | Some _ => mret (self, (salt, [], err))
     | None =>
       if negb (validateSymmetricKey salt) then
         mret (self, (salt, [], Some (fmt_Errorf
           "encryptSymmetric: failed to generate salt" [])))
       else
         let '(derivedKey, err) := DeriveOneTimeKey key salt EnvelopeVersion in
         match err with
         | Some _ => mret (self, (salt, [], err))
         | None =>
           if negb (validateSymmetricKey derivedKey) then
             mret (self, (salt, [], Some (fmt_Errorf
               "encryptSymmetric: invalid key derived" [])))
           else
             match aes_NewCipher derivedKey with
             | inr e => mret (self, (salt, [], Some e))
             | inl block =>
               match cipher_NewGCM block with
               | inr e => mret (self, (salt, [], Some e))
               | inl aesgcm =>
                 nonce <- lift (make_checked (NonceSize aesgcm));
                 '(nonce, err) <- readRandom nonce;
                 match err with
                 | Some _ => mret (self, (salt, nonce, err))
                 | None =>
                   mret ({| Raw := aead_Seal aesgcm nonce (Raw self) |},
                         (salt, nonce, None))
                 end
               end
             end
         end
     end)%go.

(** [if options.TTL == 0 { options.TTL = DefaultTTL }], on [Wrap]'s own
    copy of the options. *)
Definition withDefaultTTL (options : MessageParams) : MessageParams :=
  if TTL options =? 0 then set_TTL options DefaultTTL else options.

(** The results are [(envelope, err)]; [None] is the nil envelope. *)
Definition Wrap (self : SentMessage) (options : MessageParams)
  : M (SentMessage * (option Envelope * option error)) :=
  (let options := withDefaultTTL options in
   '(self, err) <-
     match Src options with
     | Some src => lift (sign self src)
     | None => mret (self, None)
     end;
   match err with
   | Some _ => mret (self, (None, err))
   | None =>
     if msgMaxLength <? len (Raw self) then
       mret (self, (None, Some (errors_New "Oversized message")))
     else
       '(self, (salt, nonce, err)) <-
         match Dst options with
         | Some dst =>
             '(self, err) <- encryptAsymmetric self dst;
             mret (self, ([], [], err))
         | None =>
             match KeySym options with
             | Some k => encryptSymmetric self k
             | None =>
                 mret (self, ([], [], Some (errors_New
                   "Unable to encrypt the message: neither Dst nor Key")))
             end
         end;
       match err with
       | None =>
           envelope <- call (NewEnvelope (TTL options) (Topic options)
                                         salt nonce self);
           envelope <- call (Envelope_Seal envelope options);
           mret (self, (Some envelope, None))
       | Some _ => mret (self, (None, err))
       end
   end)%go.

Definition decryptSymmetric (self : ReceivedMessage) (key salt nonce : bytes)
  : ReceivedMessage * option error :=
  let '(derivedKey, err) := DeriveOneTimeKey key salt (rEnvelopeVersion self) in
  match err with
  | Some _ => (self, err)
  | None =>
    match aes_NewCipher derivedKey with
    | inr e => (self, Some e)
    | inl block =>
      match cipher_NewGCM block with
      | inr e => (self, Some e)
      | inl aesgcm =>
        if negb (len nonce =? NonceSize aesgcm) then
          (self, Some (errors_New "Wrong AES nonce size"))
        else
          let '(decrypted, err) := aead_Open aesgcm nonce (rRaw self) in
          match err with
          | Some _ => (self, err)
          | None => (set_rRaw self decrypted, None)
          end
      end
    end
  end.

Definition decryptAsymmetric (self : ReceivedMessage) (key : PrivateKey)
  : ReceivedMessage * option error :=
  let '(decrypted, err) := crypto_Decrypt key (rRaw self) in
  match err with
  | None => (set_rRaw self decrypted, err)
  | Some _ => (self, err)
  end.

(** The results are [(paddingSize, ok)]. *)
Definition extractPadding (self : ReceivedMessage) (end_ : Z)
  : Outcome (ReceivedMessage * (Z * bool)) :=
  (flags <-- index (rRaw self) 0;;
   let sz := byte.unsigned (byte.and flags paddingMask) in
   if negb (sz =? 0) then
     field <-- slice (rRaw self) 1 (1 + sz);;
     let paddingSize := bytesToIntLittleEndian field in
     if (paddingSize <? sz) || (end_ <? paddingSize + 1) then
       Ok (self, (0, false))
     else
       padding <-- slice (rRaw self) (1 + sz) (1 + paddingSize);;
       Ok (set_rPadding self padding, (paddingSize, true))
   else Ok (self, (0, true)))%outcome.

Definition hash (self : ReceivedMessage) : Outcome bytes :=
  (flags <-- index (rRaw self) 0;;
   if isMessageSigned flags then
     let sz := len (rRaw self) - signatureLength in
     body <-- slice (rRaw self) 0 sz;;
     Ok (crypto_Keccak256 body)
   else Ok (crypto_Keccak256 (rRaw self)))%outcome.

(** The deferred [recover()] turns a panic into the nil result. *)
Definition Recover (self : ReceivedMessage) : option PublicKey :=
  match (h <-- hash self;; crypto_SigToPub h (rSignature self))%outcome with
  | Ok (pub, None) => pub
  | Ok (_, Some _) => None
  | Panic _ => None
  end.

(** The part of [Validate] after the signature has been peeled. *)
Definition Validate_unpad (self : ReceivedMessage) (end_ : Z)
  : Outcome (ReceivedMessage * bool) :=
  ('(self, (padSize, ok)) <-- extractPadding self end_;;
   if negb ok then Ok (self, false)
   else
     payload <-- slice (rRaw self) (1 + padSize) end_;;
     let self := set_rPayload self payload in
     Ok (self, xorb (isSymmetricEncryption self)
                   (isAsymmetricEncryption self)))%outcome.

Definition Validate (self : ReceivedMessage)
  : Outcome (ReceivedMessage * bool) :=
  (let end_ := len (rRaw self) in
   if end_ <? 1 then Ok (self, false)
   else
     flags <-- index (rRaw self) 0;;
     if isMessageSigned flags then
       let end_ := end_ - signatureLength in
       if end_ <=? 1 then Ok (self, false)
       else
         signature <-- slice_from (rRaw self) end_;;
         let self := set_rSignature self signature in
         let self := set_rSrc self (Recover self) in
         match rSrc self with
         | None => Ok (self, false)
         | Some _ => Validate_unpad self end_
         end
     else Validate_unpad self end_)%outcome.

End Message.

(** ** A reference environment

    PBKDF2 over HMAC-SHA-256 is implemented in full, as [pbkdf2.Key] computes
    it; 32-bit words are kept in primitive integers.  The other operations
    are small deterministic stand-ins, enough to run the message element on
    concrete inputs. *)

Module SHA256.
Local Open Scope uint63_scope.

Definition mask32 : int := 0xffffffff.
Definition w32 (x : int) : int := x land mask32.

(** Rotation to the right by [n], with [m = 32 - n]. *)
Definition rotr (n m x : int) : int := (x >> n) lor (w32 (x << m)).
Definition Ch (x y z : int) : int := (x land y) lxor ((x lxor mask32) land z).
Definition Maj (x y z : int) : int :=
  ((x land y) lxor (x land z)) lxor (y land z).
Definition Sigma0 (x : int) : int :=
  (rotr 2 30 x lxor rotr 13 19 x) lxor rotr 22 10 x.
Definition Sigma1 (x : int) : int :=
  (rotr 6 26 x lxor rotr 11 21 x) lxor rotr 25 7 x.
Definition sigma0 (x : int) : int :=
  (rotr 7 25 x lxor rotr 18 14 x) lxor (x >> 3).
Definition sigma1 (x : int) : int :=
  (rotr 17 15 x lxor rotr 19 13 x) lxor (x >> 10).

(** The first sixty-four prime numbers. *)
Definition primes : list Z :=
  [2; 3; 5; 7; 11; 13; 17; 19; 23; 29; 31; 37; 41; 43; 47; 53;
   59; 61; 67; 71; 73; 79; 83; 89; 97; 101; 103; 107; 109; 113; 127; 131;
   137; 139; 149; 151; 157; 163; 167; 173; 179; 181; 191; 193; 197; 199; 211; 223;
   227; 229; 233; 239; 241; 251; 257; 263; 269; 271; 277; 281; 283; 293; 307; 311]%Z.

(** The integer cube root, one bit at a time from bit [bits - 1] down. *)
Fixpoint cube_root (bits : nat) (n r : Z) : Z :=
  match bits with
  | O => r
  | S b =>
    let r' := (r + Z.shiftl 1 (Z.of_nat b))%Z in
    if (r' * r' * r' <=? n)%Z then cube_root b n r' else cube_root b n r
  end.

(** The round constants: the first 32 bits of the fractional parts of the
    cube roots of the primes. *)
Definition K : list int :=
  Eval vm_compute in
    map (fun p => of_Z ((cube_root 40 (p * 2 ^ 96) 0) mod 2 ^ 32)%Z) primes.

(** The initial hash value: the same of the square roots of the first
    eight primes. *)
Definition IV : list int :=
  Eval vm_compute in
    map (fun p => of_Z ((Z.sqrt (p * 2 ^ 64)) mod 2 ^ 32)%Z) (firstn 8 primes).

(** [strict x r] is [r], reached only once [x] has been computed: under
    call-by-need it keeps the working variables from piling up as
    suspended sums. *)
Definition strict {A} (x : int) (r : A) : A := if x =? x then r else r.

(** The rounds that remain, one per constant of [ks].  [w0 .. w15] are the
    sixteen words of the message schedule from the current one on; each
    round appends the word sixteen places further. *)
Fixpoint rounds (ks : list int)
  (w0 w1 w2 w3 w4 w5 w6 w7 w8 w9 w10 w11 w12 w13 w14 w15 : int)
  (a b c d e f g h : int) : list int :=
  match ks with
  | [] => [a; b; c; d; e; f; g; h]
  | k :: ks' =>
    let t1 := h + Sigma1 e + Ch e f g + k + w0 in
    let t2 := Sigma0 a + Maj a b c in
    let a' := w32 (t1 + t2) in
    let e' := w32 (d + t1) in
    let w16 := w32 (sigma1 w14 + w9 + sigma0 w1 + w0) in
    strict a' (strict e'
      (rounds ks' w1 w2 w3 w4 w5 w6 w7 w8 w9 w10 w11 w12 w13 w14 w15 w16
              a' a b c e' e f g))
  end.

Fixpoint add_words (a b : list int) : list int :=
  match a, b with
  | x :: a', y :: b' => let z := w32 (x + y) in strict z (z :: add_words a' b')
  | _, _ => []
  end.

Definition compress (hs block : list int) : list int :=
  match hs, block with
  | [a; b; c; d; e; f; g; h],
    [w0; w1; w2; w3; w4; w5; w6; w7; w8; w9; w10; w11; w12; w13; w14; w15] =>
    add_words hs (rounds K w0 w1 w2 w3 w4 w5 w6 w7 w8 w9 w10 w11 w12 w13 w14
                         w15 a b c d e f g h)
  | _, _ => hs
  end.

Definition int_of_byte (b : byte) : int := of_Z (byte.unsigned b).
Definition byte_of_int (i : int) : byte := byte.of_Z (to_Z (i land 255)).

(** Big-endian words. *)
Fixpoint words_of_bytes (n : nat) (bs : bytes) : list int :=
  match n with
  | O => []
  | S n' =>
    match bs with
    | b0 :: b1 :: b2 :: b3 :: rest =>
      ((int_of_byte b0 << 24) lor (int_of_byte b1 << 16)
       lor (int_of_byte b2 << 8) lor int_of_byte b3)
      :: words_of_bytes n' rest
    | _ => []
    end
  end.

Definition bytes_of_word (w : int) : bytes :=
  [byte_of_int (w >> 24); byte_of_int (w >> 16); byte_of_int (w >> 8);
   byte_of_int w].

(** The padded end of a message of [l] bytes in all, [msg] being what is
    left of it after whole blocks were absorbed. *)
Definition pad (l : Z) (msg : bytes) : bytes :=
  let k := ((55 - l) mod 64)%Z in
  msg ++ [byte.of_Z 128] ++ repeat Byte.x00 (Z.to_nat k)
      ++ bytes_of_word (of_Z (Z.shiftr (8 * l) 32))
      ++ bytes_of_word (w32 (of_Z (8 * l))).

Fixpoint absorb (n : nat) (hs : list int) (bs : bytes) : list int :=
  match n with
  | O => hs
  | S n' =>
    match bs with
    | [] => hs
    | _ => absorb n' (compress hs (words_of_bytes 16 bs)) (skipn 64 bs)
    end
  end.

(** The digest of a message whose first [done] bytes, whole blocks, gave
    the chaining value [hs]. *)
Definition sum_from (hs : list int) (done : Z) (msg : bytes) : bytes :=
  let p := pad (done + len msg) msg in
  flat_map bytes_of_word (absorb (length p) hs p).

Definition sum (msg : bytes) : bytes := sum_from IV 0 msg.

End SHA256.

Module HMAC.
Local Open Scope uint63_scope.
Import SHA256.

(** The chaining values after the inner and the outer key block. *)
Definition keyed (key : bytes) : list int * list int :=
  let key := if (64 <? len key)%Z then sum key else key in
  let key := key ++ repeat Byte.x00 (64 - length key) in
  let ipad := map (fun b => byte.xor b (byte.of_Z 0x36)) key in
  let opad := map (fun b => byte.xor b (byte.of_Z 0x5c)) key in
  (compress IV (words_of_bytes 16 ipad), compress IV (words_of_bytes 16 opad)).

Definition mac (st : list int * list int) (msg : bytes) : bytes :=
  sum_from (snd st) 64 (sum_from (fst st) 64 msg).

(** The end of a padded 96-byte message, after its 32-byte third part. *)
Definition tail32 : list int := [0x80000000; 0; 0; 0; 0; 0; 0; 0x300].

(** [mac] on a 32-byte message, words in and words out. *)
Definition mac32 (st : list int * list int) (U : list int) : list int :=
  compress (snd st) (compress (fst st) (U ++ tail32) ++ tail32).

End HMAC.

Module PBKDF2.
Local Open Scope uint63_scope.
Import SHA256 HMAC.

Fixpoint xor_words (a b : list int) : list int :=
  match a, b with
  | x :: a', y :: b' => let z := x lxor y in strict z (z :: xor_words a' b')
  | _, _ => []
  end.

(** [T = U_1 ^ U_2 ^ ... ^ U_iter], [n] more rounds to go. *)
Fixpoint rounds (st : list int * list int) (n : nat) (U T : list int)
  : list int :=
  match n with
  | O => T
  | S n' => let U' := mac32 st U in rounds st n' U' (xor_words T U')
  end.

Definition block (st : list int * list int) (salt : bytes) (iter : Z)
  (i : int) : bytes :=
  let U1 := words_of_bytes 8 (mac st (salt ++ bytes_of_word i)) in
  flat_map bytes_of_word (rounds st (Z.to_nat (iter - 1)) U1 U1).

Fixpoint blocks (st : list int * list int) (salt : bytes) (iter : Z)
  (n : nat) (i : int) : bytes :=
  match n with
  | O => []
  | S n' => block st salt iter i ++ blocks st salt iter n' (i + 1)
  end.

(** [pbkdf2.Key(password, salt, iter, keyLen, sha256.New)] *)
Definition Key (password salt : bytes) (iter keyLen : Z) : bytes :=
  let st := keyed password in
  let numBlocks := ((keyLen + 32 - 1) / 32)%Z in
  firstn (Z.to_nat keyLen) (blocks st salt iter (Z.to_nat numBlocks) 1).

End PBKDF2.

Module Ref.

Definition ascii_bytes (s : string) : bytes :=
  map (fun c => byte.of_Z (Z.of_N (Ascii.N_of_ascii c)))
      (list_ascii_of_string s).

(** The envelope, with the fields the data model of the spec lists. *)
Record envelope : Type := {
  Version : Z;
  Expiry : Z;
  eTTL : Z;
  eTopic : bytes;
  Salt : bytes;
  AESNonce : bytes;
  Data : bytes;
  EnvNonce : Z
}.

Record world : Type := { seed : Z; clock : Z }.

(** Keys are small numbers, a public key being equal to its private key;
    zero is the invalid key. *)
#[export] Instance domain : Domain := {|
  PrivateKey := Z;
  PublicKey := Z;
  float64 := Z;
  Envelope := envelope;
  Block := bytes;
  AEAD := bytes;
  World := world
|}.

(** A linear congruential generator. *)
Fixpoint random_bytes (n : nat) (s : Z) : bytes * Z :=
  match n with
  | O => ([], s)
  | S n' =>
    let s' := (s * 1103515245 + 12345) mod 2147483648 in
    let '(rest, s'') := random_bytes n' s' in
    (byte.of_Z (s' / 65536) :: rest, s'')
  end.

Definition read (n : Z) (w : world) : bytes * option error * world :=
  let '(bs, s) := random_bytes (Z.to_nat n) (seed w) in
  (bs, None, {| seed := s; clock := clock w |}).

(** SHA-256 stands in for Keccak-256: a 32-byte digest. *)
Definition digest (b : bytes) : bytes := SHA256.sum b.

(** A 65-byte stand-in signature [R || S || V] that names its signer. *)
Definition signature_of (h : bytes) (key : Z) : bytes :=
  h ++ digest (byte.of_Z key :: h) ++ [byte.of_Z key].

Definition Sign (h : bytes) (key : Z) : bytes * option error :=
  if negb (len h =? 32) then
    ([], Some (fmt_Errorf "hash is required to be exactly 32 bytes (%d)"
                          [len h]))
  else if (key <=? 0) || (255 <? key) then
    ([], Some (errors_New "invalid private key"))
  else (signature_of h key, None).

Definition SigToPub (h sig : bytes)
  : Outcome (option Z * option error) :=
  if negb (len sig =? 65) then Panic "invalid signature length"
  else
    let key := byte.unsigned (last sig Byte.x00) in
    if bytes_eqb sig (signature_of h key) && (0 <? key)
    then Ok (Some key, None)
    else Ok (None, Some (errors_New "invalid signature")).

(** Asymmetric encryption: the plaintext behind the recipient's number. *)
Definition Encrypt (pub : Z) (m : bytes) (w : world)
  : bytes * option error * world :=
  (byte.of_Z pub :: m, None, w).

Definition Decrypt (priv : Z) (c : bytes) : bytes * option error :=
  match c with
  | b :: m =>
    if byte.unsigned b =? priv then (m, None)
    else ([], Some (errors_New "ecies: invalid message"))
  | [] => ([], Some (errors_New "ecies: invalid message"))
  end.

Definition NewCipher (key : bytes) : bytes + error :=
  if (len key =? 16) || (len key =? 24) || (len key =? 32) then inl key
  else inr (fmt_Errorf "crypto/aes: invalid key size %d" [len key]).

(** Authenticated sealing: the plaintext followed by a 16-byte tag. *)
Definition tag (key nonce m : bytes) : bytes :=
  firstn 16 (digest (key ++ nonce ++ m)).

Definition Seal (key nonce m : bytes) : bytes := m ++ tag key nonce m.

Definition Open (key nonce c : bytes) : bytes * option error :=
  let n := (length c - 16)%nat in
  let m := firstn n c in
  if (16 <=? len c) && bytes_eqb (skipn n c) (tag key nonce m)
  then (m, None)
  else ([], Some (errors_New "cipher: message authentication failed")).

Definition validSymmetricKey (k : bytes) : bool :=
  (0 <? len k) && negb (forallb byte_is_zero k).

Definition newEnvelope (ttl : Z) (topic salt nonce : bytes)
  (msg : SentMessage) (w : world) : envelope * world :=
  ({| Version := EnvelopeVersion; Expiry := clock w + ttl; eTTL := ttl;
      eTopic := topic; Salt := salt; AESNonce := nonce; Data := Raw msg;
      EnvNonce := 0 |}, w).

(** Sealing spends the whole work time and keeps the first nonce. *)
Definition seal (e : envelope) (options : MessageParams) (w : world)
  : envelope * world :=
  (e, {| seed := seed w; clock := clock w + WorkTime options |}).

#[export] Instance env : Env := {|
  crand_Read := read;
  crypto_Keccak256 := digest;
  crypto_Sign := Sign;
  crypto_SigToPub := SigToPub;
  crypto_Encrypt := Encrypt;
  crypto_Decrypt := Decrypt;
  pbkdf2_Key := fun password salt iter keyLen h =>
    match h with
    | sha256_New => PBKDF2.Key password salt iter keyLen
    end;
  aes_NewCipher := NewCipher;
  cipher_NewGCM := fun b => inl b;
  NonceSize := fun _ => 12;
  aead_Seal := Seal;
  aead_Open := Open;
  validatePublicKey := fun k => negb (k =? 0);
  validateSymmetricKey := validSymmetricKey;
  NewEnvelope := newEnvelope;
  Envelope_Seal := seal
|}.

Definition params (src : option Z) (dst : option Z) (key : option bytes)
  (payload : bytes) : MessageParams :=
  {| TTL := 10; Src := src; Dst := dst; KeySym := key;
     Topic := map byte.of_Z [222; 173; 190; 239]; WorkTime := 1; PoW := 0;
     Payload := payload; Padding := None |}.

Definition key32 : bytes := repeat Byte.x00 31 ++ [Byte.x01].

Definition w0 : world := {| seed := 42; clock := 1000 |}.

Definition received (raw : bytes) (dst : option Z) (keyHash : bytes)
  : ReceivedMessage :=
  {| rRaw := raw; rPayload := []; rPadding := []; rSignature := [];
     rPoW := 0; rSent := 0; rTTL := 10; rSrc := None; rDst := dst;
     rTopic := map byte.of_Z [222; 173; 190; 239];
     rTopicKeyHash := keyHash; rEnvelopeHash := common_Hash_zero;
     rEnvelopeVersion := 0 |}.

Definition hello : bytes := ascii_bytes "hello".

(** The result of a run that does not panic. *)
Definition value {A} (default : A) (o : Outcome (A * world)) : A :=
  match o with
  | Ok (a, _) => a
  | Panic _ => default
  end.

Definition after {A} (o : Outcome (A * world)) : world :=
  match o with
  | Ok (_, w) => w
  | Panic _ => w0
  end.

(** The plaintext [NewSentMessage] builds for the given parameters. *)
Definition sent (p : MessageParams) : SentMessage :=
  value {| Raw := [] |} (NewSentMessage p w0).

Definition sent_world (p : MessageParams) : world :=
  after (NewSentMessage p w0).

(** A message that carries its signature: the signed flag, a payload, and
    the signature of signer 7 over the digest of what precedes it. *)
Definition signed_body : bytes := Byte.x04 :: hello.
Definition signed_message : SentMessage :=
  {| Raw := signed_body ++ signature_of (digest signed_body) 7 |}.

(** A symmetric ciphertext of [plaintext] under [key32]. *)
Definition salt12 : bytes := map byte.of_Z [1; 2; 3; 4; 5; 6; 7; 8; 9; 10; 11; 12].
Definition nonce12 : bytes := repeat Byte.x07 12.
Definition plaintext : bytes := Byte.x00 :: hello.
Definition sealed : bytes :=
  Seal (PBKDF2.Key key32 salt12 16 32) nonce12 plaintext.

(** More sample data: parameters with a symmetric key, the same with
    padding supplied, a buffer marked signed whose last 65 bytes are no
    signature, and a message one byte over the limit. *)
Definition sym_params : MessageParams := params None None (Some key32) hello.

Definition padded_params : MessageParams :=
  {| TTL := 0; Src := None; Dst := None; KeySym := Some key32;
     Topic := map byte.of_Z [222; 173; 190; 239]; WorkTime := 1; PoW := 0;
     Payload := hello; Padding := Some (ascii_bytes "pad") |}.

Definition forged : bytes := Byte.x04 :: hello ++ repeat Byte.x00 65.

Definition oversized : SentMessage :=
  {| Raw := repeat Byte.x00 (Z.to_nat (msgMaxLength + 1)) |}.

(** One message from sender to receiver: built and wrapped with [p], then
    opened with the private key [priv], or with the symmetric key of [p]
    when [priv] is [None], and validated.  The result is the payload, the
    signature and the sender as [Validate] leaves them. *)
Definition deliver (p : MessageParams) (priv : option Z)
  : option (bytes * bytes * option Z) :=
  match Wrap (sent p) p (sent_world p) with
  | Ok ((_, (Some e, None)), _) =>
    let opened :=
      match priv, KeySym p with
      | Some k, _ =>
          decryptAsymmetric (received (Data e) (Some k) common_Hash_zero) k
      | None, Some key =>
          decryptSymmetric (received (Data e) None (digest key))
                           key (Salt e) (AESNonce e)
      | None, None =>
          (received (Data e) None common_Hash_zero,
           Some (errors_New "no key"))
      end in
    match opened with
    | (rm, None) =>
      match Validate rm with
      | Ok (rm', true) => Some (rPayload rm', rSignature rm', rSrc rm')
      | _ => None
      end
    | (_, Some _) => None
    end
  | _ => None
  end.

End Ref.

(** * Properties *)

(** ** Bytes, slices and the flags byte *)

Lemma len_nonneg {A} (l : list A) : 0 <= len l.
Proof. unfold len. lia. Qed.

Lemma len_app {A} (a b : list A) : len (a ++ b) = len a + len b.
Proof. unfold len. rewrite length_app. lia. Qed.

Lemma len_cons {A} (x : A) (l : list A) : len (x :: l) = 1 + len l.
Proof. unfold len. cbn [length]. lia. Qed.

Lemma copy_length (dst src : bytes) : length (copy dst src) = length dst.
Proof.
  unfold copy. rewrite length_firstn, length_app, length_skipn. lia.
Qed.

Lemma make_length (n : Z) : length (make n) = Z.to_nat n.
Proof. unfold make. apply repeat_length. Qed.

Lemma slice_from_cons (b : byte) (l : bytes) : slice_from (b :: l) 1 = Ok l.
Proof.
  unfold slice_from, slice. rewrite len_cons.
  pose proof (len_nonneg l).
  replace ((0 <=? 1) && (1 <=? 1 + len l) && (1 + len l <=? 1 + len l))
    with true by (symmetry; rewrite !andb_true_iff, !Z.leb_le; lia).
  replace (Z.to_nat (1 + len l - 1)) with (length l) by (unfold len; lia).
  change (Z.to_nat 1) with 1%nat. cbn [skipn].
  now rewrite firstn_all.
Qed.

Lemma index_cons_0 (b : byte) (l : bytes) : index (b :: l) 0 = Ok b.
Proof.
  unfold index. rewrite len_cons. pose proof (len_nonneg l).
  replace ((0 <=? 0) && (0 <? 1 + len l)) with true
    by (symmetry; rewrite andb_true_iff, Z.leb_le, Z.ltb_lt; lia).
  reflexivity.
Qed.

Lemma slice_middle (pre mid post : bytes) :
  slice (pre ++ mid ++ post) (len pre) (len pre + len mid) = Ok mid.
Proof.
  unfold slice. rewrite !len_app.
  pose proof (len_nonneg pre). pose proof (len_nonneg mid).
  pose proof (len_nonneg post).
  replace ((0 <=? len pre) && (len pre <=? len pre + len mid)
           && (len pre + len mid <=? len pre + (len mid + len post)))
    with true by (symmetry; rewrite !andb_true_iff, !Z.leb_le; lia).
  replace (Z.to_nat (len pre + len mid - len pre)) with (length mid)
    by (unfold len; lia).
  replace (Z.to_nat (len pre)) with (length pre) by (unfold len; lia).
  rewrite skipn_app, skipn_all, Nat.sub_diag. cbn [skipn app].
  rewrite firstn_app, firstn_all, Nat.sub_diag. cbn [firstn].
  now rewrite app_nil_r.
Qed.

Lemma slice_in_range (s : bytes) (lo hi : Z) :
  0 <= lo <= hi -> hi <= len s ->
  slice s lo hi = Ok (firstn (Z.to_nat (hi - lo)) (skipn (Z.to_nat lo) s)).
Proof.
  intros H1 H2. unfold slice.
  replace ((0 <=? lo) && (lo <=? hi) && (hi <=? len s)) with true
    by (symmetry; rewrite !andb_true_iff, !Z.leb_le; lia).
  reflexivity.
Qed.

Lemma slice_out_of_range (s : bytes) (lo hi : Z) :
  len s < hi -> slice s lo hi = Panic "slice bounds out of range".
Proof.
  intros H. unfold slice.
  replace (hi <=? len s) with false by (symmetry; apply Z.leb_gt; lia).
  now rewrite andb_false_r.
Qed.

Lemma paddingMask_range (f : byte) :
  0 <= byte.unsigned (byte.and f paddingMask) <= 3.
Proof. destruct f; vm_compute; split; discriminate. Qed.

Lemma bytesToIntLittleEndian_one (n : Z) :
  0 <= n < 256 -> bytesToIntLittleEndian [byte.of_Z n] = n.
Proof.
  intros Hn. unfold bytesToIntLittleEndian. cbn [fold_right].
  rewrite byte.unsigned_of_Z. unfold byte.wrap.
  change (2 ^ 8) with 256. rewrite (Z.mod_small n 256) by lia.
  rewrite Z.mod_small; [lia|]. change (2 ^ 64) with 18446744073709551616. lia.
Qed.

Lemma cleared_flags_unpadded (b : byte) :
  byte.and (byte.and (byte.and b (byte_not paddingMask))
                     (byte_not signatureFlag)) paddingMask = Byte.x00.
Proof. destruct b; reflexivity. Qed.

Lemma cleared_flags_unsigned (b : byte) :
  isMessageSigned (byte.and (byte.and b (byte_not paddingMask))
                            (byte_not signatureFlag)) = false.
Proof. destruct b; reflexivity. Qed.

Lemma padded_flag_size (f : byte) :
  byte.and f paddingMask = Byte.x00 ->
  byte.unsigned (byte.and (byte_or f (byte.of_Z 1)) paddingMask) = 1.
Proof. destruct f; vm_compute; congruence. Qed.

Lemma padded_flag_keeps_signed (f : byte) :
  isMessageSigned (byte_or f (byte.of_Z 1)) = isMessageSigned f.
Proof. destruct f; reflexivity. Qed.

Lemma isMessagePadded_size (f : byte) :
  isMessagePadded f = negb (byte.unsigned (byte.and f paddingMask) =? 0).
Proof. reflexivity. Qed.

(** ** Padding on the way out *)

Section Padding.
Context {D : Domain} {E : Env}.

Lemma padTotal_pos (params : MessageParams) : 0 < padTotal params.
Proof.
  unfold padTotal, signatureLength.
  pose proof (len_nonneg (Payload params)). destruct (Src params); lia.
Qed.

Lemma padChunkOf_256 (total : Z) : padChunkOf total = 256.
Proof.
  unfold padChunkOf, padSizeLimitLower, padSizeLimitUpper.
  now destruct (total <=? 256).
Qed.

Lemma spec_padLength_range (params : MessageParams) : 0 <= spec_padLength params <= 255.
Proof. unfold spec_padLength. pose proof (Z.mod_pos_bound (256 - padTotal params mod 256) 256). lia. Qed.

(** What one call of [appendPadding] does, for every source of random
    bytes: nothing when the sizes are aligned, and else one block of
    [spec_padLength] bytes that starts with its own size. *)
Lemma appendPadding_run (self : SentMessage) (params : MessageParams)
  (w : World) :
  (spec_padLength params = 0 /\ appendPadding self params w = Ok (self, w)) \/
  (0 < spec_padLength params /\
   exists (tail : bytes) (w' : World) (first : byte) (rest : bytes),
     len tail = spec_padLength params - 1 /\
     Raw self ++ byte.of_Z (spec_padLength params) :: tail = first :: rest /\
     appendPadding self params w =
       Ok ({| Raw := byte_or first (byte.of_Z 1) :: rest |}, w')).
Proof.
  pose proof (padTotal_pos params) as Hpos.
  pose proof (Z.mod_pos_bound (padTotal params) 256 ltac:(lia)) as Hodd.
  unfold appendPadding, spec_padLength.
  rewrite padChunkOf_256, Z.rem_mod_nonneg by lia.
  destruct (0 <? padTotal params mod 256) eqn:Hlt.
  - apply Z.ltb_lt in Hlt. right.
    set (odd := padTotal params mod 256) in *.
    rewrite (Z.mod_small (256 - odd)) by lia.
    split; [lia|].
    replace (255 <? 256 - odd) with false by (symmetry; apply Z.ltb_ge; lia).
    unfold mbind, lift, make_checked, mret.
    replace (256 - odd <? 0) with false by (symmetry; apply Z.ltb_ge; lia).
    assert (Hmake : make (256 - odd) = Byte.x00 :: make (255 - odd)).
    { unfold make. replace (Z.to_nat (256 - odd)) with (S (Z.to_nat (255 - odd))) by lia.
      reflexivity. }
    rewrite Hmake, slice_from_cons.
    unfold readRandom.
    destruct (crand_Read (len (make (255 - odd))) w) as [[rnd err] w'].
    set (tail := match Padding params with
                 | Some p => copy (copy (make (255 - odd)) rnd) p
                 | None => copy (make (255 - odd)) rnd
                 end).
    assert (Htail : len tail = 256 - odd - 1).
    { unfold len, tail. destruct (Padding params);
        rewrite ?copy_length, make_length; lia. }
    destruct (Raw self ++ byte.of_Z (256 - odd) :: tail) as [|first rest] eqn:Hraw.
    { destruct (Raw self); discriminate. }
    exists tail, w', first, rest. cbn [update_first]. auto.
  - apply Z.ltb_ge in Hlt. left.
    replace (padTotal params mod 256) with 0 by lia.
    split; reflexivity.
Qed.

Lemma singleton_of_length (l : bytes) : length l = 1%nat -> exists b, l = [b].
Proof.
  destruct l as [|b [|c l]]; cbn; try discriminate. intros _. now exists b.
Qed.

(** What [NewSentMessage] builds, for every source of random bytes. *)
Lemma NewSentMessage_run (params : MessageParams) (w : World) :
  exists (flags : byte) (padding : bytes) (w' : World),
    NewSentMessage params w =
      Ok ({| Raw := flags :: padding ++ Payload params |}, w') /\
    len padding = spec_padLength params /\
    isMessageSigned flags = false /\
    byte.unsigned (byte.and flags paddingMask) =
      (if spec_padLength params =? 0 then 0 else 1) /\
    (0 < spec_padLength params ->
     exists tail, padding = byte.of_Z (spec_padLength params) :: tail).
Proof.
  unfold NewSentMessage. unfold mbind at 1. unfold readRandom.
  destruct (crand_Read (len (make 1)) w) as [[rnd err] w1].
  destruct (singleton_of_length (copy (make 1) rnd)) as [b Hb].
  { now rewrite copy_length. }
  rewrite Hb. unfold mbind, lift. change (index [b] 0) with (Ok b).
  cbv beta iota.
  set (f := byte.and (byte.and b (byte_not paddingMask))
                     (byte_not signatureFlag)).
  destruct (appendPadding_run {| Raw := [f] |} params w1)
    as [[Hz Hrun] | [Hp (tail & w2 & first & rest & Hlen & Hraw & Hrun)]];
    rewrite Hrun; unfold mret; cbn [Raw].
  - exists f, [], w1. rewrite Hz. cbn [app]. repeat split.
    + apply cleared_flags_unsigned.
    + unfold f. now rewrite cleared_flags_unpadded.
    + lia.
  - cbn [Raw app] in Hraw. injection Hraw as <- <-.
    exists (byte_or f (byte.of_Z 1)), (byte.of_Z (spec_padLength params) :: tail), w2.
    repeat split.
    + rewrite len_cons. lia.
    + rewrite padded_flag_keeps_signed. apply cleared_flags_unsigned.
    + rewrite padded_flag_size by apply cleared_flags_unpadded.
      destruct (Z.eqb_spec (spec_padLength params) 0); [lia | reflexivity].
    + intros _. now exists tail.
Qed.

Lemma spec_padLength_aligns (params : MessageParams) :
  (padTotal params + spec_padLength params) mod 256 = 0.
Proof.
  unfold spec_padLength.
  pose proof (Z.mod_pos_bound (padTotal params) 256 ltac:(lia)) as Hodd.
  rewrite Z.add_mod_idemp_r by lia.
  replace (padTotal params + (256 - padTotal params mod 256))
    with (padTotal params mod 256 + (256 - padTotal params mod 256)
          + 256 * (padTotal params / 256))
    by (pose proof (Z.div_mod (padTotal params) 256 ltac:(lia)); lia).
  replace (padTotal params mod 256 + (256 - padTotal params mod 256)
           + 256 * (padTotal params / 256))
    with ((1 + padTotal params / 256) * 256) by lia.
  apply Z.mod_mul. lia.
Qed.

(** C10: [appendPadding] never panics.  Whatever the message, the
    parameters and the random bytes, the call returns; on the branch that
    adds padding, where [total mod padChunk] is positive, the pad size
    [padChunk - total mod padChunk] is at most 255 because [padChunk] is at
    most 256, so the guarded [panic] is not reached. *)
Theorem appendPadding_never_panics (self : SentMessage)
  (params : MessageParams) (w : World) :
  (exists (msg : SentMessage) (w' : World),
     appendPadding self params w = Ok (msg, w')) /\
  (let total := padTotal params in
   let padChunk := padChunkOf total in
   padChunk <= 256 /\
   (0 < Z.rem total padChunk -> padChunk - Z.rem total padChunk <= 255)).
Proof.
  split.
  - destruct (appendPadding_run self params w)
      as [[_ Hrun] | [_ (tail & w' & first & rest & _ & _ & Hrun)]];
      rewrite Hrun; eauto.
  - cbv zeta. rewrite padChunkOf_256. split; lia.
Qed.

(** C4: the padding size law.  In the plaintext [NewSentMessage]
    assembles, which is the flags byte, the padding block and the payload,
    with 65 bytes counted as reserved for the signature when [Src] is set:
    whenever a padding block is present, the sizes add up to a multiple of
    256; and when the required pad length is zero, the block is omitted and
    padSizeLen, the low two bits of the flags, is zero. *)
Theorem NewSentMessage_padding_law (params : MessageParams) (w : World) :
  exists (flags : byte) (padding : bytes) (w' : World),
    NewSentMessage params w =
      Ok ({| Raw := flags :: padding ++ Payload params |}, w') /\
    (isMessagePadded flags = true <-> padding <> []) /\
    (padding <> [] ->
     (1 + len padding + len (Payload params)
      + match Src params with Some _ => 65 | None => 0 end) mod 256 = 0) /\
    (spec_padLength params = 0 ->
     padding = [] /\ byte.unsigned (byte.and flags paddingMask) = 0).
Proof.
  destruct (NewSentMessage_run params w)
    as (flags & padding & w' & Hrun & Hlen & _ & Hsz & Hhead).
  exists flags, padding, w'. split; [exact Hrun|].
  pose proof (spec_padLength_range params) as Hrange.
  assert (Hempty : padding = [] <-> spec_padLength params = 0).
  { rewrite <- Hlen. unfold len. destruct padding; cbn; split;
      intros; try reflexivity; try discriminate; lia. }
  split; [split | split].
  - rewrite isMessagePadded_size, Hsz. intros Hp Hnil.
    apply Hempty in Hnil. rewrite Hnil in Hp. discriminate.
  - intros Hne. rewrite isMessagePadded_size, Hsz.
    destruct (Z.eqb_spec (spec_padLength params) 0) as [H0|]; [|reflexivity].
    now apply Hempty in H0.
  - intros _. rewrite Hlen. pose proof (spec_padLength_aligns params) as Ha.
    unfold padTotal, signatureLength in Ha.
    rewrite <- Ha. f_equal. destruct (Src params); lia.
  - intros H0. split; [now apply Hempty|]. rewrite Hsz, H0. reflexivity.
Qed.

End Padding.

(** ** Padding on the way in *)

Section Ingress.
Context {D : Domain} {E : Env}.

(** C5: round trip of the padding codec.  [appendPadding] runs on the
    one-byte buffer [NewSentMessage] hands it, whose padSizeLen bits are
    clear.  When it adds a padding block, [extractPadding] on that buffer,
    alone or followed by the payload and the signature, with [end_] at or
    after the end of the block, succeeds and returns the padding length:
    the block's length, which the first padSizeLen bytes of the block
    encode little-endian. *)
Theorem padding_round_trip (f : byte) (params : MessageParams) (w w' : World)
  (msg : SentMessage) (rm : ReceivedMessage) (rest : bytes) (end_ : Z) :
  byte.and f paddingMask = Byte.x00 ->
  appendPadding {| Raw := [f] |} params w = Ok (msg, w') ->
  Raw msg <> [f] ->
  rRaw rm = Raw msg ++ rest ->
  len (Raw msg) <= end_ ->
  exists (flags : byte) (block : bytes),
    Raw msg = flags :: block /\
    let sz := Z.to_nat (byte.unsigned (byte.and flags paddingMask)) in
    bytesToIntLittleEndian (firstn sz block) = len block /\
    extractPadding rm end_ =
      Ok (set_rPadding rm (skipn sz block), (len block, true)).
Proof.
  intros Hf Hrun Hne Hraw Hend.
  pose proof (spec_padLength_range params) as Hrange.
  destruct (appendPadding_run {| Raw := [f] |} params w)
    as [[_ Hrun'] | [Hp (tail & w2 & first & rest' & Hlen & Hcat & Hrun')]];
    rewrite Hrun' in Hrun; injection Hrun as <- <-.
  { now contradiction Hne. }
  cbn [Raw app] in Hcat. injection Hcat as <- <-. cbn [Raw] in *.
  set (ps := spec_padLength params) in *.
  exists (byte_or f (byte.of_Z 1)), (byte.of_Z ps :: tail).
  split; [reflexivity|].
  rewrite (padded_flag_size f Hf). cbv zeta. change (Z.to_nat 1) with 1%nat.
  cbn [firstn skipn].
  assert (Hblock : len (byte.of_Z ps :: tail) = ps) by (rewrite len_cons; lia).
  rewrite bytesToIntLittleEndian_one, Hblock by lia.
  split; [reflexivity|].
  unfold extractPadding. rewrite Hraw. cbn [app].
  rewrite index_cons_0. cbn [obind].
  rewrite (padded_flag_size f Hf). cbn [Z.eqb negb].
  pose proof (slice_middle [byte_or f (byte.of_Z 1)] [byte.of_Z ps]
                (tail ++ rest)) as Hs1.
  cbn [app] in Hs1. change (len [byte_or f (byte.of_Z 1)]) with 1 in Hs1.
  change (len [byte.of_Z ps]) with 1 in Hs1. rewrite Hs1. cbn [obind].
  rewrite bytesToIntLittleEndian_one by lia.
  rewrite !len_cons in Hend.
  replace ((ps <? 1) || (end_ <? ps + 1)) with false
    by (symmetry; rewrite orb_false_iff, !Z.ltb_ge; lia).
  pose proof (slice_middle [byte_or f (byte.of_Z 1); byte.of_Z ps] tail rest)
    as Hs2.
  cbn [app] in Hs2.
  change (len [byte_or f (byte.of_Z 1); byte.of_Z ps]) with 2 in Hs2.
  replace (2 + len tail) with (1 + ps) in Hs2 by lia.
  change (1 + 1) with 2. rewrite Hs2. reflexivity.
Qed.

(** The check in [extractPadding], when the buffer holds the bytes of the
    size field: an encoded length below padSizeLen, or one that reaches
    past [end_], is refused. *)
Lemma extractPadding_rejects (rm : ReceivedMessage) (flags : byte)
  (body : bytes) (end_ : Z) :
  rRaw rm = flags :: body ->
  let sz := byte.unsigned (byte.and flags paddingMask) in
  sz <> 0 ->
  sz <= len body ->
  let paddingSize := bytesToIntLittleEndian (firstn (Z.to_nat sz) body) in
  paddingSize < sz \/ end_ < paddingSize + 1 ->
  extractPadding rm end_ = Ok (rm, (0, false)).
Proof.
  intros Hraw sz Hsz Hfield paddingSize Hbad.
  unfold extractPadding. rewrite Hraw, index_cons_0. cbn [obind].
  fold sz. destruct (Z.eqb_spec sz 0) as [|_]; [contradiction|]. cbn [negb].
  pose proof (paddingMask_range flags) as Hr. fold sz in Hr.
  rewrite slice_in_range by (rewrite ?len_cons; lia).
  change (Z.to_nat 1) with 1%nat. cbn [skipn obind].
  replace (1 + sz - 1) with sz by lia. fold paddingSize.
  replace ((paddingSize <? sz) || (end_ <? paddingSize + 1)) with true
    by (symmetry; rewrite orb_true_iff, !Z.ltb_lt; exact Hbad).
  reflexivity.
Qed.

(** The same through [Validate], [end_] being the end of the buffer once
    the signature is peeled. *)
Lemma Validate_rejects_bad_padding (rm : ReceivedMessage) (flags : byte)
  (body : bytes) :
  rRaw rm = flags :: body ->
  let sz := byte.unsigned (byte.and flags paddingMask) in
  sz <> 0 ->
  sz <= len body ->
  let end_ := if isMessageSigned flags
              then len (rRaw rm) - signatureLength else len (rRaw rm) in
  let paddingSize := bytesToIntLittleEndian (firstn (Z.to_nat sz) body) in
  paddingSize < sz \/ end_ < paddingSize + 1 ->
  exists rm', Validate rm = Ok (rm', false).
Proof.
  intros Hraw sz Hsz Hfield end_ paddingSize Hbad.
  unfold Validate. cbv zeta. pose proof (len_nonneg body).
  assert (Hlen : len (rRaw rm) = 1 + len body) by now rewrite Hraw, len_cons.
  replace (len (rRaw rm) <? 1) with false by (symmetry; apply Z.ltb_ge; lia).
  assert (Hidx : index (rRaw rm) 0 = Ok flags)
    by (rewrite Hraw; apply index_cons_0).
  rewrite Hidx. cbn [obind].
  subst end_. destruct (isMessageSigned flags).
  - destruct (len (rRaw rm) - signatureLength <=? 1) eqn:Hshort; [eauto|].
    apply Z.leb_gt in Hshort. unfold slice_from.
    rewrite slice_in_range by (unfold signatureLength in *; lia).
    cbn [obind].
    match goal with
    | |- context [set_rSrc ?m ?r] => set (rm1 := set_rSrc m r)
    end.
    destruct (rSrc rm1); [|eauto].
    unfold Validate_unpad.
    rewrite (extractPadding_rejects rm1 flags body) by assumption.
    cbn. eauto.
  - unfold Validate_unpad.
    rewrite (extractPadding_rejects rm flags body) by assumption.
    cbn. eauto.
Qed.

(** C6: ingress validation and a malformed padding block.  [Validate] is
    claimed to return false whenever the padding block would exceed the
    remaining buffer.  On an unsigned buffer that ends before the
    padSizeLen bytes of the size field, the slice [Raw[1 : 1+sz]] is out of
    range: [extractPadding] panics, and so does [Validate], which has no
    recover. *)
Theorem Validate_truncated_size_field_panics (rm : ReceivedMessage)
  (flags : byte) (body : bytes) :
  rRaw rm = flags :: body ->
  isMessageSigned flags = false ->
  len body < byte.unsigned (byte.and flags paddingMask) ->
  extractPadding rm (len (rRaw rm)) = Panic "slice bounds out of range" /\
  Validate rm = Panic "slice bounds out of range".
Proof.
  intros Hraw Hunsigned Hshort.
  pose proof (len_nonneg body).
  assert (Hex : forall end_,
             extractPadding rm end_ = Panic "slice bounds out of range").
  { intros end_. unfold extractPadding. rewrite Hraw, index_cons_0.
    cbn [obind].
    destruct (Z.eqb_spec (byte.unsigned (byte.and flags paddingMask)) 0);
      [lia|].
    cbn [negb]. rewrite slice_out_of_range by (rewrite len_cons; lia).
    reflexivity. }
  split; [apply Hex|].
  unfold Validate. cbv zeta.
  replace (len (rRaw rm) <? 1) with false
    by (symmetry; apply Z.ltb_ge; rewrite Hraw, len_cons; lia).
  assert (Hidx : index (rRaw rm) 0 = Ok flags)
    by (rewrite Hraw; apply index_cons_0).
  rewrite Hidx. cbn [obind].
  rewrite Hunsigned. unfold Validate_unpad. now rewrite Hex.
Qed.

End Ingress.

(** ** Validation and decryption *)

Section Receive.
Context {D : Domain} {E : Env}.

Lemma bytes_eqb_eq (a b : bytes) : bytes_eqb a b = true <-> a = b.
Proof.
  unfold bytes_eqb. destruct (list_eq_dec Byte.byte_eq_dec a b); split;
    intros; try assumption; try reflexivity; try discriminate; contradiction.
Qed.

Lemma isSymmetricEncryption_iff (m : ReceivedMessage) :
  isSymmetricEncryption m = true <-> symmetricMode m.
Proof.
  unfold isSymmetricEncryption, symmetricMode.
  rewrite negb_true_iff, <- bytes_eqb_eq.
  destruct (bytes_eqb _ _); split; congruence.
Qed.

Lemma isAsymmetricEncryption_iff (m : ReceivedMessage) :
  isAsymmetricEncryption m = true <-> asymmetricMode m.
Proof.
  unfold isAsymmetricEncryption, asymmetricMode.
  destruct (rDst m); split; congruence.
Qed.

Lemma extractPadding_keeps_mode (m m' : ReceivedMessage) (end_ : Z)
  (r : Z * bool) :
  extractPadding m end_ = Ok (m', r) ->
  rTopicKeyHash m' = rTopicKeyHash m /\ rDst m' = rDst m.
Proof.
  unfold extractPadding.
  destruct (index (rRaw m) 0) as [flags|]; cbn [obind]; [|discriminate].
  destruct (negb _).
  - destruct (slice (rRaw m) 1 _) as [field|]; cbn [obind]; [|discriminate].
    destruct (_ || _).
    + intros [= <- _]. auto.
    + destruct (slice (rRaw m) _ _); cbn [obind]; [|discriminate].
      intros [= <- _]. auto.
  - intros [= <- _]. auto.
Qed.

Lemma Validate_unpad_true (m m' : ReceivedMessage) (end_ : Z) :
  Validate_unpad m end_ = Ok (m', true) ->
  xorb (isSymmetricEncryption m) (isAsymmetricEncryption m) = true /\
  rTopicKeyHash m' = rTopicKeyHash m /\ rDst m' = rDst m.
Proof.
  unfold Validate_unpad.
  destruct (extractPadding m end_) as [[m1 [padSize ok]]|] eqn:Hex;
    cbn [obind]; [|discriminate].
  apply extractPadding_keeps_mode in Hex as [Hk Hd].
  destruct ok; cbn [negb]; [|discriminate].
  destruct (slice (rRaw m1) _ _); cbn [obind]; [|discriminate].
  intros [= <- Hx].
  unfold isSymmetricEncryption, isAsymmetricEncryption in *.
  cbn [set_rPayload rTopicKeyHash rDst] in *.
  rewrite Hk, Hd in Hx. auto.
Qed.

(** C8: a validated message is in exactly one mode.  When [Validate]
    returns true, either the message is symmetric ([TopicKeyHash] is not the
    zero hash) and not asymmetric ([Dst] is nil), or the other way round;
    [Validate] leaves both fields as they were. *)
Theorem Validate_true_exactly_one_mode (rm rm' : ReceivedMessage) :
  Validate rm = Ok (rm', true) ->
  ((symmetricMode rm' /\ ~ asymmetricMode rm') \/
   (~ symmetricMode rm' /\ asymmetricMode rm')) /\
  rTopicKeyHash rm' = rTopicKeyHash rm /\ rDst rm' = rDst rm.
Proof.
  intros Hv.
  assert (Hx : xorb (isSymmetricEncryption rm) (isAsymmetricEncryption rm)
               = true /\
               rTopicKeyHash rm' = rTopicKeyHash rm /\ rDst rm' = rDst rm).
  { revert Hv. unfold Validate. cbv zeta.
    destruct (len (rRaw rm) <? 1); [discriminate|].
    destruct (index (rRaw rm) 0) as [flags|]; cbn [obind]; [|discriminate].
    destruct (isMessageSigned flags).
    - destruct (_ <=? 1); [discriminate|].
      destruct (slice_from _ _) as [sig|]; cbn [obind]; [|discriminate].
      match goal with
      | |- context [set_rSrc ?m ?r] => set (rm1 := set_rSrc m r)
      end.
      destruct (rSrc rm1); [|discriminate].
      intros Hu. apply Validate_unpad_true in Hu. exact Hu.
    - apply Validate_unpad_true. }
  destruct Hx as (Hx & Hk & Hd). split; [|auto].
  unfold symmetricMode, asymmetricMode. rewrite Hk, Hd.
  fold (symmetricMode rm) (asymmetricMode rm).
  rewrite <- isSymmetricEncryption_iff, <- isAsymmetricEncryption_iff.
  destruct (isSymmetricEncryption rm), (isAsymmetricEncryption rm);
    cbn in Hx; try discriminate; [left | right]; split; congruence.
Qed.

(** C9: decryption is atomic on failure.  When [decryptSymmetric] or
    [decryptAsymmetric] returns an error the message is unchanged, [Raw]
    included; when it returns no error, [Raw] has become the plaintext the
    primitive returned, and nothing else has changed. *)
Theorem decrypt_atomic_on_failure (rm : ReceivedMessage)
  (key salt nonce : bytes) (priv : PrivateKey) :
  (forall rm' err,
     decryptSymmetric rm key salt nonce = (rm', err) ->
     (err <> None -> rm' = rm) /\
     (err = None ->
      exists aesgcm plaintext,
        aead_Open aesgcm nonce (rRaw rm) = (plaintext, None) /\
        rm' = set_rRaw rm plaintext)) /\
  (forall rm' err,
     decryptAsymmetric rm priv = (rm', err) ->
     (err <> None -> rm' = rm) /\
     (err = None ->
      exists plaintext,
        crypto_Decrypt priv (rRaw rm) = (plaintext, None) /\
        rm' = set_rRaw rm plaintext)).
Proof.
  split; intros rm' err.
  - unfold decryptSymmetric.
    destruct (DeriveOneTimeKey key salt (rEnvelopeVersion rm)) as [dk [e|]].
    { intros [= <- <-]. split; [reflexivity | discriminate]. }
    destruct (aes_NewCipher dk) as [block|e].
    2:{ intros [= <- <-]. split; [reflexivity | discriminate]. }
    destruct (cipher_NewGCM block) as [aesgcm|e].
    2:{ intros [= <- <-]. split; [reflexivity | discriminate]. }
    destruct (negb (len nonce =? NonceSize aesgcm)).
    { intros [= <- <-]. split; [reflexivity | discriminate]. }
    destruct (aead_Open aesgcm nonce (rRaw rm)) as [pt [e|]] eqn:Hopen.
    { intros [= <- <-]. split; [reflexivity | discriminate]. }
    intros [= <- <-]. split; [congruence|]. intros _. eauto.
  - unfold decryptAsymmetric.
    destruct (crypto_Decrypt priv (rRaw rm)) as [pt [e|]] eqn:Hdec.
    { intros [= <- <-]. split; [reflexivity | discriminate]. }
    intros [= <- <-]. split; [congruence|]. intros _. eauto.
Qed.

End Receive.

(** ** Signing and key derivation *)

Section Signing.
Context {D : Domain} {E : Env}.

(** C1: what [sign] does on a message that is not yet signed.  The test on
    the error of [crypto.Sign] is inverted: when signing succeeds, [sign]
    returns the message as it was, without the signature and without the
    signed flag; when it fails, [sign] appends whatever came back with the
    error, sets the signed flag, and returns the error. *)
Theorem sign_appends_only_on_failure (self : SentMessage) (key : PrivateKey)
  (flags : byte) (rest signature : bytes) (err : option error) :
  Raw self = flags :: rest ->
  isMessageSigned flags = false ->
  crypto_Sign (crypto_Keccak256 (Raw self)) key = (signature, err) ->
  sign self key =
    match err with
    | None => Ok (self, None)
    | Some e =>
        Ok ({| Raw := byte_or flags signatureFlag :: rest ++ signature |},
            Some e)
    end.
Proof.
  intros Hraw Hunsigned Hsign. unfold sign.
  rewrite Hraw at 1. rewrite index_cons_0. cbn [obind].
  rewrite Hunsigned, Hsign. destruct err; [|reflexivity].
  rewrite Hraw. reflexivity.
Qed.

(** C7, as the code has it: signing a message whose signed flag is set is
    not an error.  [sign] logs, returns the nil error, and leaves the
    message as it was, with no second signature. *)
Theorem sign_signed_message_is_noop (self : SentMessage) (key : PrivateKey)
  (flags : byte) (rest : bytes) :
  Raw self = flags :: rest ->
  isMessageSigned flags = true ->
  sign self key = Ok (self, None).
Proof.
  intros Hraw Hsigned. unfold sign.
  rewrite Hraw at 1. rewrite index_cons_0. cbn [obind].
  now rewrite Hsigned.
Qed.

(** C3, as the code has it: for version 0, [DeriveOneTimeKey] returns the
    PBKDF2-SHA256 derivation of 32 bytes computed with 16 iterations, and no
    error. *)
Theorem DeriveOneTimeKey_iterations (key salt : bytes) :
  DeriveOneTimeKey key salt 0 =
    (pbkdf2_Key key salt 16 32 sha256_New, None).
Proof. reflexivity. Qed.

End Signing.

(** ** Wrapping *)

Section Wrapping.
Context {D : Domain} {E : Env}.



End Wrapping.

(** * Further properties of the message element *)

(** ** Lists and slices *)

Lemma slice_inv (s : bytes) (lo hi : Z) (r : bytes) :
  slice s lo hi = Ok r ->
  0 <= lo <= hi /\ hi <= len s /\
  r = firstn (Z.to_nat (hi - lo)) (skipn (Z.to_nat lo) s).
Proof.
  unfold slice.
  destruct ((0 <=? lo) && (lo <=? hi) && (hi <=? len s)) eqn:Hc;
    [|discriminate].
  rewrite !andb_true_iff, !Z.leb_le in Hc. intros [= <-].
  repeat split; lia.
Qed.

Lemma skipn_succ_cons (b : byte) (l : bytes) (n : Z) :
  0 <= n -> skipn (Z.to_nat (1 + n)) (b :: l) = skipn (Z.to_nat n) l.
Proof.
  intros Hn. replace (Z.to_nat (1 + n)) with (S (Z.to_nat n)) by lia.
  reflexivity.
Qed.

Lemma split_four {A} (l : list A) (a b c : nat) :
  (a <= b <= c)%nat ->
  l = firstn a l ++ firstn (b - a) (skipn a l)
      ++ firstn (c - b) (skipn b l) ++ skipn c l.
Proof.
  intros Hle.
  rewrite <- (firstn_skipn a l) at 1. f_equal.
  rewrite <- (firstn_skipn (b - a) (skipn a l)) at 1. f_equal.
  rewrite skipn_skipn. replace (b - a + a)%nat with b by lia.
  rewrite <- (firstn_skipn (c - b) (skipn b l)) at 1. f_equal.
  rewrite skipn_skipn. f_equal. lia.
Qed.

Lemma copy_prefix (dst src : bytes) :
  firstn (length src) (copy dst src) = firstn (length dst) src.
Proof.
  unfold copy. rewrite firstn_firstn.
  destruct (Nat.le_ge_cases (length src) (length dst)) as [Hle | Hge].
  - rewrite Nat.min_l by exact Hle.
    rewrite firstn_app, Nat.sub_diag, firstn_all. cbn [firstn].
    rewrite app_nil_r. symmetry. apply firstn_all2. exact Hle.
  - rewrite Nat.min_r by exact Hge.
    rewrite firstn_app.
    replace (length dst - length src)%nat with 0%nat by lia.
    cbn [firstn]. now rewrite app_nil_r.
Qed.

(** ** Parsing a received plaintext *)

Section Parsing.
Context {D : Domain} {E : Env}.

(** What a successful [extractPadding] has read. *)
Lemma extractPadding_inv (m m' : ReceivedMessage) (flags : byte)
  (body : bytes) (e ps : Z) :
  rRaw m = flags :: body ->
  extractPadding m e = Ok (m', (ps, true)) ->
  let sz := byte.unsigned (byte.and flags paddingMask) in
  (sz = 0 /\ ps = 0 /\ m' = m) \/
  (sz <> 0 /\ sz <= len body /\
   ps = bytesToIntLittleEndian (firstn (Z.to_nat sz) body) /\
   sz <= ps /\ ps + 1 <= e /\ ps <= len body /\
   m' = set_rPadding m
          (firstn (Z.to_nat (ps - sz)) (skipn (Z.to_nat sz) body))).
Proof.
  intros Hraw Hex sz. revert Hex.
  pose proof (paddingMask_range flags) as Hr. fold sz in Hr.
  unfold extractPadding. rewrite Hraw, index_cons_0. cbn [obind]. fold sz.
  destruct (Z.eqb_spec sz 0) as [H0 | Hn0]; cbn [negb].
  { intros [= <- <-]. left. auto. }
  destruct (slice (flags :: body) 1 (1 + sz)) as [field|] eqn:Hs1;
    cbn [obind]; [|discriminate].
  apply slice_inv in Hs1 as (_ & Hlen1 & ->). rewrite len_cons in Hlen1.
  change (Z.to_nat 1) with 1%nat. cbn [skipn].
  replace (1 + sz - 1) with sz by lia.
  set (n := bytesToIntLittleEndian (firstn (Z.to_nat sz) body)).
  destruct ((n <? sz) || (e <? n + 1)) eqn:Hbad; [discriminate|].
  apply orb_false_iff in Hbad as [Hb1 Hb2].
  apply Z.ltb_ge in Hb1, Hb2.
  destruct (slice (flags :: body) (1 + sz) (1 + n)) as [padding|] eqn:Hs2;
    cbn [obind]; [|discriminate].
  apply slice_inv in Hs2 as (_ & Hlen2 & ->). rewrite len_cons in Hlen2.
  rewrite skipn_succ_cons by lia.
  replace (1 + n - (1 + sz)) with (n - sz) by lia.
  intros [= <- <-]. right. repeat split; try lia; reflexivity.
Qed.

(** What [Validate] has read once the signature is peeled, when it ends
    well. *)
Lemma Validate_unpad_inv (m m' : ReceivedMessage) (flags : byte)
  (body : bytes) (e : Z) :
  rRaw m = flags :: body ->
  Validate_unpad m e = Ok (m', true) ->
  let sz := byte.unsigned (byte.and flags paddingMask) in
  exists (ps : Z) (m1 : ReceivedMessage),
    0 <= sz <= ps /\ ps + 1 <= e /\ e <= 1 + len body /\
    (sz = 0 -> ps = 0 /\ m1 = m) /\
    (sz <> 0 ->
     ps = bytesToIntLittleEndian (firstn (Z.to_nat sz) body) /\
     m1 = set_rPadding m
            (firstn (Z.to_nat (ps - sz)) (skipn (Z.to_nat sz) body))) /\
    m' = set_rPayload m1
           (firstn (Z.to_nat (e - 1 - ps)) (skipn (Z.to_nat ps) body)).
Proof.
  intros Hraw Hv sz. revert Hv.
  pose proof (paddingMask_range flags) as Hr. fold sz in Hr.
  unfold Validate_unpad.
  destruct (extractPadding m e) as [[m1 [ps ok]]|] eqn:Hex;
    cbv beta iota delta [obind]; [|discriminate].
  destruct ok; cbv beta iota delta [negb]; [|discriminate].
  pose proof (extractPadding_inv m m1 flags body e ps Hraw Hex) as Hinv.
  cbv zeta in Hinv. fold sz in Hinv.
  assert (Hraw1 : rRaw m1 = flags :: body).
  { destruct Hinv as [(_ & _ & ->) | (_ & _ & _ & _ & _ & _ & ->)];
      exact Hraw. }
  rewrite Hraw1.
  destruct (slice (flags :: body) (1 + ps) e) as [payload|] eqn:Hs;
    cbv beta iota delta [obind]; [|discriminate].
  apply slice_inv in Hs as (Hlo & Hhi & ->). rewrite len_cons in Hhi.
  intros Hv.
  assert (Hm : m' = set_rPayload m1
                      (firstn (Z.to_nat (e - (1 + ps)))
                              (skipn (Z.to_nat (1 + ps)) (flags :: body))))
    by congruence.
  subst m'. clear Hv.
  exists ps, m1.
  assert (Hps : 0 <= ps) by (destruct Hinv as [(_ & -> & _) | H]; lia).
  rewrite skipn_succ_cons by lia.
  replace (e - (1 + ps)) with (e - 1 - ps) by lia.
  destruct Hinv as [(Hz & -> & ->) | (Hnz & Hf & Hn & Hle & He & Hb & ->)].
  - repeat split; try lia; intros; try reflexivity; lia.
  - repeat split; try lia; intros; try assumption; try reflexivity; lia.
Qed.

(** [Validate_unpad] returns whenever the size field lies inside the
    buffer. *)
Lemma Validate_unpad_returns (m : ReceivedMessage) (flags : byte)
  (body : bytes) (e : Z) :
  rRaw m = flags :: body ->
  byte.unsigned (byte.and flags paddingMask) <= len body ->
  1 <= e <= 1 + len body ->
  exists r, Validate_unpad m e = Ok r.
Proof.
  intros Hraw Hfield He.
  pose proof (paddingMask_range flags) as Hr.
  set (sz := byte.unsigned (byte.and flags paddingMask)) in *.
  unfold Validate_unpad, extractPadding.
  rewrite Hraw, index_cons_0. cbn [obind]. fold sz.
  destruct (Z.eqb_spec sz 0) as [H0 | Hn0]; cbn [negb obind].
  - rewrite Hraw, slice_in_range by (rewrite ?len_cons; lia).
    cbn [obind]. eauto.
  - rewrite slice_in_range by (rewrite ?len_cons; lia). cbn [obind].
    set (n := bytesToIntLittleEndian _).
    destruct ((n <? sz) || (e <? n + 1)) eqn:Hbad; cbn [obind negb];
      [eauto|].
    apply orb_false_iff in Hbad as [Hb1 Hb2]. apply Z.ltb_ge in Hb1, Hb2.
    rewrite slice_in_range by (rewrite ?len_cons; lia). cbn [obind negb].
    cbn [set_rPadding rRaw]. rewrite Hraw.
    rewrite slice_in_range by (rewrite ?len_cons; lia). cbn [obind].
    eauto.
Qed.

End Parsing.

(** ** Validation *)

Section Validation.
Context {D : Domain} {E : Env}.

Lemma Validate_unsigned_step (rm : ReceivedMessage) (flags : byte)
  (body : bytes) :
  rRaw rm = flags :: body ->
  isMessageSigned flags = false ->
  Validate rm = Validate_unpad rm (len (rRaw rm)).
Proof.
  intros Hraw Hunsigned. unfold Validate. cbv zeta.
  pose proof (len_nonneg body).
  replace (len (rRaw rm) <? 1) with false
    by (symmetry; apply Z.ltb_ge; rewrite Hraw, len_cons; lia).
  rewrite Hraw at 1. rewrite index_cons_0. cbn [obind].
  now rewrite Hunsigned.
Qed.

(** The signature [Validate] peels off, and the digest it is checked
    against. *)
Lemma Validate_signed_step (rm : ReceivedMessage) (flags : byte)
  (body : bytes) :
  rRaw rm = flags :: body ->
  isMessageSigned flags = true ->
  66 < len (rRaw rm) ->
  let cut := Z.to_nat (len (rRaw rm) - signatureLength) in
  let signature := skipn cut (rRaw rm) in
  let sender :=
    match crypto_SigToPub (crypto_Keccak256 (firstn cut (rRaw rm)))
                          signature with
    | Ok (pub, None) => pub
    | Ok (_, Some _) => None
    | Panic _ => None
    end in
  let rm1 := set_rSrc (set_rSignature rm signature) sender in
  Validate rm =
    match sender with
    | None => Ok (rm1, false)
    | Some _ => Validate_unpad rm1 (len (rRaw rm) - signatureLength)
    end.
Proof.
  intros Hraw Hsigned Hlong. cbv zeta.
  unfold Validate. cbv zeta.
  replace (len (rRaw rm) <? 1) with false by (symmetry; apply Z.ltb_ge; lia).
  assert (Hidx : index (rRaw rm) 0 = Ok flags)
    by (rewrite Hraw; apply index_cons_0).
  rewrite Hidx. cbn [obind]. rewrite Hsigned.
  unfold signatureLength in *.
  replace (len (rRaw rm) - 65 <=? 1) with false
    by (symmetry; apply Z.leb_gt; lia).
  unfold slice_from. rewrite slice_in_range by lia. cbn [obind].
  assert (Hsig : firstn (Z.to_nat (len (rRaw rm) - (len (rRaw rm) - 65)))
                        (skipn (Z.to_nat (len (rRaw rm) - 65)) (rRaw rm))
                 = skipn (Z.to_nat (len (rRaw rm) - 65)) (rRaw rm)).
  { apply firstn_all2. rewrite length_skipn. unfold len. lia. }
  rewrite Hsig.
  set (signature := skipn (Z.to_nat (len (rRaw rm) - 65)) (rRaw rm)).
  assert (Hrec : Recover (set_rSignature rm signature) =
                 match crypto_SigToPub
                         (crypto_Keccak256
                            (firstn (Z.to_nat (len (rRaw rm) - 65)) (rRaw rm)))
                         signature with
                 | Ok (pub, None) => pub
                 | Ok (_, Some _) => None
                 | Panic _ => None
                 end).
  { unfold Recover, hash. cbn [set_rSignature rRaw rSignature].
    rewrite Hidx. cbn [obind]. rewrite Hsigned.
    unfold signatureLength. rewrite slice_in_range by lia.
    cbn [obind]. change (Z.to_nat 0) with 0%nat. cbn [skipn].
    replace (len (rRaw rm) - 65 - 0) with (len (rRaw rm) - 65) by lia.
    reflexivity. }
  rewrite Hrec. cbn [set_rSrc rSrc]. reflexivity.
Qed.

Lemma Validate_short_signed (rm : ReceivedMessage) (flags : byte)
  (body : bytes) :
  rRaw rm = flags :: body ->
  isMessageSigned flags = true ->
  len (rRaw rm) <= 66 ->
  Validate rm = Ok (rm, false).
Proof.
  intros Hraw Hsigned Hshort. unfold Validate. cbv zeta.
  pose proof (len_nonneg body).
  replace (len (rRaw rm) <? 1) with false
    by (symmetry; apply Z.ltb_ge; rewrite Hraw, len_cons; lia).
  rewrite Hraw at 1. rewrite index_cons_0. cbn [obind]. rewrite Hsigned.
  unfold signatureLength.
  replace (len (rRaw rm) - 65 <=? 1) with true
    by (symmetry; apply Z.leb_le; lia).
  reflexivity.
Qed.

(** X1: [Validate] on a short buffer.  An empty buffer, and a buffer
    marked signed that is too short to hold a flags byte, one more byte
    and a 65-byte signature, are refused: [Validate] returns false, and the
    message is as it was. *)
Theorem Validate_short_input (rm : ReceivedMessage) :
  (rRaw rm = [] -> Validate rm = Ok (rm, false)) /\
  (forall flags body,
     rRaw rm = flags :: body ->
     isMessageSigned flags = true ->
     len (rRaw rm) <= 66 ->
     Validate rm = Ok (rm, false)).
Proof.
  split.
  - intros Hraw. unfold Validate. cbv zeta. now rewrite Hraw.
  - apply Validate_short_signed.
Qed.

(** X2: [Validate] panics in no other case than the truncated size field
    of an unsigned buffer.  When every unsigned buffer at hand holds the
    padSizeLen bytes its flags announce, [Validate] returns, whatever
    [crypto.SigToPub] does. *)
Theorem Validate_returns (rm : ReceivedMessage) :
  (forall flags body,
     rRaw rm = flags :: body ->
     isMessageSigned flags = false ->
     byte.unsigned (byte.and flags paddingMask) <= len body) ->
  exists r, Validate rm = Ok r.
Proof.
  intros Hfield.
  destruct (rRaw rm) as [|flags body] eqn:Hraw.
  { unfold Validate. cbv zeta. rewrite Hraw. cbn. eauto. }
  pose proof (len_nonneg body) as Hb.
  pose proof (paddingMask_range flags) as Hr.
  assert (Hlen : len (rRaw rm) = 1 + len body) by now rewrite Hraw, len_cons.
  destruct (isMessageSigned flags) eqn:Hsigned.
  - destruct (Z_le_gt_dec (len (rRaw rm)) 66) as [Hshort | Hlong].
    + exists (rm, false).
      apply (Validate_short_signed rm flags body Hraw Hsigned Hshort).
    + rewrite (Validate_signed_step rm flags body Hraw Hsigned) by lia.
      cbv zeta.
      match goal with
      | |- context [set_rSrc ?m ?s] => set (sender := s); set (rm1 := set_rSrc m sender)
      end.
      destruct sender; [|eauto].
      apply (Validate_unpad_returns rm1 flags body); [exact Hraw| |];
        unfold signatureLength; lia.
  - rewrite (Validate_unsigned_step rm flags body Hraw Hsigned).
    apply (Validate_unpad_returns rm flags body (len (rRaw rm)) Hraw).
    + now apply Hfield.
    + lia.
Qed.

End Validation.

Section Validated.
Context {D : Domain} {E : Env}.

(** X3: a signature nobody can be recovered from.  On a buffer marked
    signed and long enough, when [crypto.SigToPub] panics, returns an
    error, or returns no key for the digest of the buffer without its last
    65 bytes, [Validate] returns false; the panic goes no further.  The
    signature has been stored and the sender is nil. *)
Theorem Validate_absorbs_recover_failure (rm : ReceivedMessage)
  (flags : byte) (body : bytes) :
  rRaw rm = flags :: body ->
  isMessageSigned flags = true ->
  66 < len (rRaw rm) ->
  let cut := Z.to_nat (len (rRaw rm) - signatureLength) in
  let signature := skipn cut (rRaw rm) in
  let recovered :=
    crypto_SigToPub (crypto_Keccak256 (firstn cut (rRaw rm))) signature in
  (forall pub, recovered <> Ok (Some pub, None)) ->
  Validate rm = Ok (set_rSrc (set_rSignature rm signature) None, false).
Proof.
  intros Hraw Hsigned Hlong cut signature recovered Hfail.
  rewrite (Validate_signed_step rm flags body Hraw Hsigned Hlong).
  cbv zeta. fold cut. fold signature. fold recovered.
  destruct recovered as [[[pub|] [e|]]|m]; try reflexivity.
  now contradiction (Hfail pub).
Qed.

(** X4: the sender of a validated signed message.  When [Validate] returns
    true on a buffer marked signed, the buffer has more than 66 bytes, the
    stored signature is its last 65 bytes, and the stored sender is the key
    [crypto.SigToPub] returned, without error, for that signature and the
    Keccak digest of all the bytes before it. *)
Theorem Validate_signed_sender (rm rm' : ReceivedMessage) (flags : byte)
  (body : bytes) :
  rRaw rm = flags :: body ->
  isMessageSigned flags = true ->
  Validate rm = Ok (rm', true) ->
  66 < len (rRaw rm) /\
  let cut := Z.to_nat (len (rRaw rm) - signatureLength) in
  rSignature rm' = skipn cut (rRaw rm) /\
  len (rSignature rm') = signatureLength /\
  exists pub,
    rSrc rm' = Some pub /\
    crypto_SigToPub (crypto_Keccak256 (firstn cut (rRaw rm)))
                    (rSignature rm') = Ok (Some pub, None).
Proof.
  intros Hraw Hsigned Hv.
  destruct (Z_le_gt_dec (len (rRaw rm)) 66) as [Hshort | Hlong].
  { rewrite (Validate_short_signed rm flags body Hraw Hsigned Hshort) in Hv.
    discriminate Hv. }
  split; [lia|]. cbv zeta.
  rewrite (Validate_signed_step rm flags body Hraw Hsigned) in Hv by lia.
  cbv zeta in Hv.
  set (cut := Z.to_nat (len (rRaw rm) - signatureLength)) in *.
  set (signature := skipn cut (rRaw rm)) in *.
  destruct (crypto_SigToPub (crypto_Keccak256 (firstn cut (rRaw rm)))
                            signature) as [[[pub|] [e|]]|m] eqn:Hrec;
    try discriminate Hv.
  set (rm1 := set_rSrc (set_rSignature rm signature) (Some pub)) in *.
  destruct (Validate_unpad_inv rm1 rm' flags body _ Hraw Hv)
    as (ps & m1 & _ & _ & _ & Hz & Hnz & ->).
  assert (Hm1 : rSignature m1 = signature /\ rSrc m1 = Some pub).
  { destruct (Z.eq_dec (byte.unsigned (byte.and flags paddingMask)) 0)
      as [H0 | H0].
    - destruct (Hz H0) as [_ ->]. split; reflexivity.
    - destruct (Hnz H0) as [_ ->]. split; reflexivity. }
  destruct Hm1 as [Hs1 Hp1].
  cbn [set_rPayload rSignature rSrc]. rewrite Hs1, Hp1.
  split; [reflexivity|]. split.
  - unfold signature, cut, signatureLength. unfold len in *.
    rewrite length_skipn. lia.
  - exists pub. split; [reflexivity | exact Hrec].
Qed.

(** X5: a validated buffer is the concatenation of what [Validate] read
    from it.  When [Validate] returns true, [Raw] is unchanged and consists
    of the flags byte, the size field of padSizeLen bytes, the padding, the
    payload and the signature, in this order and with nothing left over.
    For a padded message the size field encodes, little-endian, the length
    of size field and padding together; an unpadded message has neither,
    and an unsigned one no signature.  The fields of a part that is absent
    are left as they were. *)
Theorem Validate_partitions_Raw (rm rm' : ReceivedMessage) :
  Validate rm = Ok (rm', true) ->
  exists (flags : byte) (field padding signature : bytes),
    rRaw rm = flags :: field ++ padding ++ rPayload rm' ++ signature /\
    rRaw rm' = rRaw rm /\
    len field = byte.unsigned (byte.and flags paddingMask) /\
    (if isMessagePadded flags
     then rPadding rm' = padding /\
          bytesToIntLittleEndian field = len field + len padding
     else padding = [] /\ rPadding rm' = rPadding rm) /\
    (if isMessageSigned flags
     then rSignature rm' = signature /\ len signature = signatureLength
     else signature = [] /\ rSignature rm' = rSignature rm).
Proof.
  intros Hv.
  destruct (rRaw rm) as [|flags body] eqn:Hraw.
  { unfold Validate in Hv. cbv zeta in Hv. rewrite Hraw in Hv.
    discriminate Hv. }
  pose proof (len_nonneg body) as Hb.
  pose proof (paddingMask_range flags) as Hr.
  assert (Hlen : len (rRaw rm) = 1 + len body) by now rewrite Hraw, len_cons.
  set (sz := byte.unsigned (byte.and flags paddingMask)) in *.
  (* the message as it is when the padding is looked at, and where the
     payload ends *)
  assert (Hstep : exists rm1 e,
             Validate_unpad rm1 e = Ok (rm', true) /\
             rRaw rm1 = flags :: body /\ rPadding rm1 = rPadding rm /\
             (if isMessageSigned flags
              then e = len (rRaw rm) - signatureLength /\ 1 < e /\
                   rSignature rm1 = skipn (Z.to_nat (e - 1)) body
              else e = len (rRaw rm) /\ rSignature rm1 = rSignature rm)).
  { destruct (isMessageSigned flags) eqn:Hsigned.
    - destruct (Z_le_gt_dec (len (flags :: body)) 66) as [Hshort | Hlong].
      { rewrite <- Hraw in Hshort.
        rewrite (Validate_short_signed rm flags body Hraw Hsigned Hshort)
          in Hv.
        discriminate Hv. }
      rewrite <- Hraw in Hlong.
      rewrite (Validate_signed_step rm flags body Hraw Hsigned) in Hv by lia.
      cbv zeta in Hv.
      match type of Hv with
      | context [set_rSrc ?m ?s] =>
          set (sender := s) in *; set (rm1 := set_rSrc m sender) in *
      end.
      destruct sender; [|discriminate Hv].
      exists rm1, (len (rRaw rm) - signatureLength).
      unfold signatureLength in *.
      repeat split; try assumption; try lia.
      cbn [rm1 set_rSrc set_rSignature rSignature]. rewrite Hraw.
      replace (Z.to_nat (len (flags :: body) - 65))
        with (S (Z.to_nat (len (flags :: body) - 65 - 1)))
        by (rewrite Hraw in Hlen, Hlong; lia).
      reflexivity.
    - rewrite (Validate_unsigned_step rm flags body Hraw Hsigned) in Hv.
      exists rm, (len (rRaw rm)). auto. }
  destruct Hstep as (rm1 & e & Hu & Hraw1 & Hpad1 & Hsig).
  destruct (Validate_unpad_inv rm1 rm' flags body e Hraw1 Hu)
    as (ps & m1 & Hsz & Hpe & Hel & Hz & Hnz & ->).
  fold sz in Hsz, Hz, Hnz.
  exists flags, (firstn (Z.to_nat sz) body),
         (firstn (Z.to_nat (ps - sz)) (skipn (Z.to_nat sz) body)),
         (skipn (Z.to_nat (e - 1)) body).
  cbn [set_rPayload rPayload rRaw rPadding rSignature].
  assert (Hm1 : rRaw m1 = flags :: body /\ rSignature m1 = rSignature rm1 /\
                (sz = 0 -> rPadding m1 = rPadding rm) /\
                (sz <> 0 -> rPadding m1 = firstn (Z.to_nat (ps - sz))
                                                 (skipn (Z.to_nat sz) body))).
  { destruct (Z.eq_dec sz 0) as [H0 | H0].
    - destruct (Hz H0) as [_ ->]. repeat split; auto; contradiction.
    - destruct (Hnz H0) as [_ ->]. repeat split; auto; contradiction. }
  destruct Hm1 as (Hr1 & Hs1 & Hp0 & Hpn).
  assert (Hfield : len (firstn (Z.to_nat sz) body) = sz).
  { unfold len. rewrite length_firstn. unfold len in *. lia. }
  assert (Hpadlen : len (firstn (Z.to_nat (ps - sz))
                                (skipn (Z.to_nat sz) body)) = ps - sz).
  { unfold len. rewrite length_firstn, length_skipn. unfold len in *. lia. }
  split.
  { f_equal.
    rewrite (split_four body (Z.to_nat sz) (Z.to_nat ps) (Z.to_nat (e - 1)))
      at 1 by lia.
    replace (Z.to_nat ps - Z.to_nat sz)%nat with (Z.to_nat (ps - sz)) by lia.
    replace (Z.to_nat (e - 1) - Z.to_nat ps)%nat
      with (Z.to_nat (e - 1 - ps)) by lia.
    reflexivity. }
  split; [exact Hr1|]. split; [exact Hfield|]. split.
  - rewrite isMessagePadded_size. fold sz.
    destruct (Z.eqb_spec sz 0) as [H0 | H0]; cbn [negb].
    + split; [|now rewrite Hp0].
      replace (ps - sz) with 0 by (destruct (Hz H0); lia). reflexivity.
    + split; [now apply Hpn|].
      rewrite Hfield, Hpadlen. destruct (Hnz H0) as [<- _]. lia.
  - destruct (isMessageSigned flags).
    + destruct Hsig as (-> & He & Hsg). split; [congruence|].
      unfold len, signatureLength in *. rewrite length_skipn. lia.
    + destruct Hsig as (-> & Hsg). split; [|congruence].
      apply skipn_all2. unfold len in *. lia.
Qed.

End Validated.

(** ** From the sender's plaintext to the receiver's fields *)

Section Plaintext.
Context {D : Domain} {E : Env}.

(** [appendPadding] with padding supplied by the caller. *)
Lemma appendPadding_supplied (self : SentMessage) (params : MessageParams)
  (p : bytes) (w : World) :
  Padding params = Some p ->
  0 < spec_padLength params ->
  exists (tail : bytes) (w' : World) (first : byte) (rest : bytes),
    len tail = spec_padLength params - 1 /\
    firstn (length p) tail = firstn (Z.to_nat (spec_padLength params - 1)) p /\
    Raw self ++ byte.of_Z (spec_padLength params) :: tail = first :: rest /\
    appendPadding self params w =
      Ok ({| Raw := byte_or first (byte.of_Z 1) :: rest |}, w').
Proof.
  intros Hp Hpos.
  pose proof (padTotal_pos params) as Htot.
  pose proof (Z.mod_pos_bound (padTotal params) 256 ltac:(lia)) as Hodd.
  revert Hpos. unfold appendPadding, spec_padLength.
  rewrite padChunkOf_256, Z.rem_mod_nonneg by lia.
  set (odd := padTotal params mod 256) in *.
  intros Hpos.
  assert (Hodd0 : 0 < odd).
  { destruct (Z.eq_dec odd 0) as [H0|]; [|lia].
    rewrite H0 in Hpos. cbn in Hpos. lia. }
  rewrite (Z.mod_small (256 - odd)) by lia.
  replace (0 <? odd) with true by (symmetry; apply Z.ltb_lt; lia).
  replace (255 <? 256 - odd) with false by (symmetry; apply Z.ltb_ge; lia).
  unfold mbind, lift, make_checked, mret.
  replace (256 - odd <? 0) with false by (symmetry; apply Z.ltb_ge; lia).
  assert (Hmake : make (256 - odd) = Byte.x00 :: make (255 - odd)).
  { unfold make.
    replace (Z.to_nat (256 - odd)) with (S (Z.to_nat (255 - odd))) by lia.
    reflexivity. }
  rewrite Hmake, slice_from_cons.
  unfold readRandom.
  destruct (crand_Read (len (make (255 - odd))) w) as [[rnd err] w'].
  rewrite Hp.
  set (tail := copy (copy (make (255 - odd)) rnd) p).
  assert (Htail : len tail = 256 - odd - 1).
  { unfold len, tail. rewrite !copy_length, make_length. lia. }
  assert (Hpre : firstn (length p) tail = firstn (Z.to_nat (256 - odd - 1)) p).
  { unfold tail. rewrite copy_prefix, copy_length, make_length.
    f_equal. lia. }
  destruct (Raw self ++ byte.of_Z (256 - odd) :: tail)
    as [|first rest] eqn:Hraw.
  { destruct (Raw self); discriminate. }
  exists tail, w', first, rest. cbn [update_first]. auto.
Qed.

(** [Validate] on a plaintext of the shape [NewSentMessage] builds. *)
Lemma Validate_built (rm : ReceivedMessage) (flags : byte)
  (padding payload : bytes) :
  rRaw rm = flags :: padding ++ payload ->
  isMessageSigned flags = false ->
  byte.unsigned (byte.and flags paddingMask) =
    (if len padding =? 0 then 0 else 1) ->
  len padding <= 255 ->
  (0 < len padding ->
   exists tail, padding = byte.of_Z (len padding) :: tail) ->
  Validate rm =
    Ok (set_rPayload
          (if len padding =? 0 then rm else set_rPadding rm (tl padding))
          payload,
        xorb (isSymmetricEncryption rm) (isAsymmetricEncryption rm)).
Proof.
  intros Hraw Hunsigned Hsz Hmax Hhead.
  rewrite (Validate_unsigned_step rm flags (padding ++ payload) Hraw Hunsigned).
  unfold Validate_unpad, extractPadding.
  rewrite Hraw, index_cons_0. cbn [obind]. rewrite Hsz.
  pose proof (len_nonneg padding) as Hpl.
  pose proof (len_nonneg payload) as Hyl.
  destruct (Z.eqb_spec (len padding) 0) as [H0 | Hn0].
  - assert (padding = []) as -> by (destruct padding; [reflexivity | discriminate]).
    cbn [Z.eqb negb obind app]. rewrite Hraw. cbn [app].
    pose proof (slice_middle [flags] payload []) as Hs.
    rewrite app_nil_r in Hs. cbn [app] in Hs.
    change (len [flags]) with 1 in Hs.
    change (1 + 0) with 1. rewrite len_cons. rewrite Hs. reflexivity.
  - destruct (Hhead ltac:(lia)) as [tail Htail].
    assert (Htl : len tail = len padding - 1)
      by (pose proof (f_equal len Htail) as Hl; rewrite len_cons in Hl; lia).
    set (ps := len padding) in *. rewrite Htail. cbn [tl app].
    cbn [Z.eqb negb].
    pose proof (slice_middle [flags] [byte.of_Z ps] (tail ++ payload)) as Hs1.
    cbn [app] in Hs1. change (len [flags]) with 1 in Hs1.
    change (len [byte.of_Z ps]) with 1 in Hs1. rewrite Hs1. cbn [obind].
    rewrite bytesToIntLittleEndian_one by lia.
    rewrite !len_cons, len_app.
    replace ((ps <? 1) || (1 + (1 + (len tail + len payload)) <? ps + 1))
      with false by (symmetry; rewrite orb_false_iff, !Z.ltb_ge; lia).
    pose proof (slice_middle [flags; byte.of_Z ps] tail payload) as Hs2.
    cbn [app] in Hs2. change (len [flags; byte.of_Z ps]) with 2 in Hs2.
    replace (2 + len tail) with (1 + ps) in Hs2 by lia.
    change (1 + 1) with 2. rewrite Hs2. cbn [obind negb].
    cbn [set_rPadding rRaw]. rewrite Hraw, Htail. cbn [app].
    pose proof (slice_middle (flags :: byte.of_Z ps :: tail) payload []) as Hs3.
    rewrite app_nil_r in Hs3. cbn [app] in Hs3.
    rewrite !len_cons in Hs3.
    replace (1 + (1 + len tail)) with (1 + ps) in Hs3 by lia.
    replace (1 + (1 + (len tail + len payload))) with (1 + ps + len payload)
      by lia.
    rewrite Hs3. reflexivity.
Qed.

(** X6: what is built is what is read.  For all parameters and random
    bytes, [NewSentMessage] returns a plaintext on which [Validate] returns
    without panic; the payload it extracts is the payload of the
    parameters, and its verdict is that exactly one of the two modes is
    set on the received message. *)
Theorem NewSentMessage_Validate_round_trip (params : MessageParams)
  (w : World) :
  exists (msg : SentMessage) (w' : World),
    NewSentMessage params w = Ok (msg, w') /\
    forall rm : ReceivedMessage,
      rRaw rm = Raw msg ->
      exists rm',
        Validate rm =
          Ok (rm', xorb (isSymmetricEncryption rm)
                        (isAsymmetricEncryption rm)) /\
        rPayload rm' = Payload params /\
        rRaw rm' = rRaw rm.
Proof.
  destruct (NewSentMessage_run params w)
    as (flags & padding & w' & Hrun & Hlen & Hunsigned & Hsz & Hhead).
  pose proof (spec_padLength_range params) as Hrange.
  exists {| Raw := flags :: padding ++ Payload params |}, w'.
  split; [exact Hrun|]. intros rm Hraw. cbn [Raw] in Hraw.
  eexists. split.
  - apply (Validate_built rm flags padding (Payload params) Hraw Hunsigned).
    + now rewrite Hlen.
    + lia.
    + rewrite Hlen. exact Hhead.
  - destruct (len padding =? 0); split; reflexivity.
Qed.

(** X7: padding supplied by the caller reaches the receiver.  When the
    parameters carry [Padding] and a padding block is needed,
    [NewSentMessage] copies the supplied bytes behind the size byte, as
    many as fit; [Validate] on the plaintext stores a padding of the pad
    size less one that begins with those bytes. *)
Theorem supplied_padding_round_trip (params : MessageParams) (p : bytes)
  (w : World) :
  Padding params = Some p ->
  0 < spec_padLength params ->
  exists (msg : SentMessage) (w' : World),
    NewSentMessage params w = Ok (msg, w') /\
    forall rm : ReceivedMessage,
      rRaw rm = Raw msg ->
      exists rm' ok,
        Validate rm = Ok (rm', ok) /\
        len (rPadding rm') = spec_padLength params - 1 /\
        firstn (length p) (rPadding rm') =
          firstn (Z.to_nat (spec_padLength params - 1)) p.
Proof.
  intros Hp Hpos.
  pose proof (spec_padLength_range params) as Hrange.
  unfold NewSentMessage. unfold mbind at 1. unfold readRandom.
  destruct (crand_Read (len (make 1)) w) as [[rnd err] w1].
  destruct (singleton_of_length (copy (make 1) rnd)) as [b Hb].
  { now rewrite copy_length. }
  rewrite Hb. unfold mbind, lift. change (index [b] 0) with (Ok b).
  cbv beta iota.
  set (f := byte.and (byte.and b (byte_not paddingMask))
                     (byte_not signatureFlag)).
  destruct (appendPadding_supplied {| Raw := [f] |} params p w1 Hp Hpos)
    as (tail & w2 & first & rest & Hlen & Hpre & Hraw & Hrun).
  rewrite Hrun. unfold mret. cbn [Raw].
  cbn [Raw app] in Hraw. injection Hraw as <- <-.
  eexists _, w2. split; [reflexivity|].
  intros rm Hrm. cbn [Raw] in Hrm.
  set (ps := spec_padLength params) in *.
  assert (Hpad : len (byte.of_Z ps :: tail) = ps) by (rewrite len_cons; lia).
  pose proof (Validate_built rm (byte_or f (byte.of_Z 1))
                (byte.of_Z ps :: tail) (Payload params) Hrm) as Hv.
  rewrite Hpad in Hv.
  replace (ps =? 0) with false in Hv by (symmetry; apply Z.eqb_neq; lia).
  specialize (Hv ltac:(rewrite padded_flag_keeps_signed;
                       apply cleared_flags_unsigned)
                 ltac:(apply padded_flag_size, cleared_flags_unpadded)
                 ltac:(lia)
                 ltac:(intros _; now exists tail)).
  eexists _, _. split; [exact Hv|].
  cbn [set_rPayload set_rPadding rPadding tl]. split; assumption.
Qed.

End Plaintext.

(** ** Encryption *)

Section Encryption.
Context {D : Domain} {E : Env}.

(** What [encryptSymmetric] has done when it returns. *)
Lemma encryptSymmetric_inv (self self' : SentMessage) (key salt nonce : bytes)
  (err : option error) (w w' : World) :
  encryptSymmetric self key w = Ok ((self', (salt, nonce, err)), w') ->
  (err <> None /\ self' = self) \/
  (err = None /\
   validateSymmetricKey key = true /\
   len salt = saltLength /\
   exists block aesgcm,
     aes_NewCipher (pbkdf2_Key key salt 16 aesKeyLength sha256_New)
       = inl block /\
     cipher_NewGCM block = inl aesgcm /\
     len nonce = NonceSize aesgcm /\
     self' = {| Raw := aead_Seal aesgcm nonce (Raw self) |}).
Proof.
  unfold encryptSymmetric.
  destruct (validateSymmetricKey key) eqn:Hkey; cbn [negb].
  2:{ unfold mret. intros [= <- <- <- <- <-]. left. split; [discriminate | reflexivity]. }
  unfold mbind at 1. unfold readRandom.
  destruct (crand_Read (len (make saltLength)) w) as [[rnd e1] w1].
  set (s := copy (make saltLength) rnd).
  assert (Hs : len s = saltLength).
  { unfold len, s. rewrite copy_length, make_length. unfold saltLength. lia. }
  destruct e1 as [e1|].
  { unfold mret. intros [= <- <- <- <- <-]. left. split; [discriminate | reflexivity]. }
  destruct (validateSymmetricKey s); cbn [negb].
  2:{ unfold mret. intros [= <- <- <- <- <-]. left. split; [discriminate | reflexivity]. }
  change (DeriveOneTimeKey key s EnvelopeVersion)
    with (pbkdf2_Key key s 16 aesKeyLength sha256_New, @None error).
  cbv beta iota.
  set (dk := pbkdf2_Key key s 16 aesKeyLength sha256_New).
  destruct (validateSymmetricKey dk); cbn [negb].
  2:{ unfold mret. intros [= <- <- <- <- <-]. left. split; [discriminate | reflexivity]. }
  destruct (aes_NewCipher dk) as [block | e2] eqn:Hblock.
  2:{ unfold mret. intros [= <- <- <- <- <-]. left. split; [discriminate | reflexivity]. }
  destruct (cipher_NewGCM block) as [aesgcm | e3] eqn:Hgcm.
  2:{ unfold mret. intros [= <- <- <- <- <-]. left. split; [discriminate | reflexivity]. }
  unfold mbind, lift, make_checked.
  destruct (NonceSize aesgcm <? 0) eqn:Hneg; [discriminate|].
  apply Z.ltb_ge in Hneg.
  destruct (crand_Read (len (make (NonceSize aesgcm))) w1) as [[rnd2 e4] w2].
  set (n := copy (make (NonceSize aesgcm)) rnd2).
  assert (Hn : len n = NonceSize aesgcm).
  { unfold len, n. rewrite copy_length, make_length. lia. }
  destruct e4 as [e4|]; unfold mret.
  { intros [= <- <- <- <- <-]. left. split; [discriminate | reflexivity]. }
  intros [= <- <- <- <- <-]. right.
  split; [reflexivity|]. split; [reflexivity|]. split; [exact Hs|].
  exists block, aesgcm. auto.
Qed.

(** X8: symmetric encryption, all or nothing.  When [encryptSymmetric]
    returns an error, the message is as it was.  When it returns none, the
    key passed the validity check, the salt has [saltLength] bytes, the
    nonce has the size the cipher asks for, and [Raw] is the sealing of the
    former [Raw] under the AES-GCM cipher of the key that
    [DeriveOneTimeKey] derives from key and salt. *)
Theorem encryptSymmetric_outcome (self self' : SentMessage)
  (key salt nonce : bytes) (err : option error) (w w' : World) :
  encryptSymmetric self key w = Ok ((self', (salt, nonce, err)), w') ->
  (err <> None -> self' = self) /\
  (err = None ->
   validateSymmetricKey key = true /\
   len salt = saltLength /\
   exists block aesgcm,
     aes_NewCipher (fst (DeriveOneTimeKey key salt EnvelopeVersion))
       = inl block /\
     cipher_NewGCM block = inl aesgcm /\
     len nonce = NonceSize aesgcm /\
     Raw self' = aead_Seal aesgcm nonce (Raw self)).
Proof.
  intros Hrun.
  destruct (encryptSymmetric_inv _ _ _ _ _ _ _ _ Hrun)
    as [[Herr ->] | (-> & Hkey & Hsalt & block & aesgcm & Hb & Hg & Hn & ->)].
  - split; [reflexivity | contradiction].
  - split; [intros H; now contradiction H|]. intros _.
    split; [exact Hkey|]. split; [exact Hsalt|].
    exists block, aesgcm. auto.
Qed.

End Encryption.

Section Pipeline.
Context {D : Domain} {E : Env}.



(** X10: the version guard of [decryptSymmetric].  For a message from an
    envelope of any version but 0, [decryptSymmetric] returns the error of
    [DeriveOneTimeKey] that names the version, and leaves the message as it
    was, whatever the key, salt and nonce. *)
Theorem decryptSymmetric_version_guard (rm : ReceivedMessage)
  (key salt nonce : bytes) :
  rEnvelopeVersion rm <> 0 ->
  decryptSymmetric rm key salt nonce =
    (rm, Some (fmt_Errorf "DeriveKey: invalid envelope version: %d"
                          [rEnvelopeVersion rm])).
Proof.
  intros Hv. unfold decryptSymmetric, DeriveOneTimeKey.
  destruct (Z.eqb_spec (rEnvelopeVersion rm) 0); [contradiction | reflexivity].
Qed.

(** X11: the nonce guard of [decryptSymmetric].  For version 0, once the
    cipher for the derived key exists, a nonce whose length is not the
    size the cipher asks for is refused with "Wrong AES nonce size"; the
    message is as it was, whatever [Open] would have returned. *)
Theorem decryptSymmetric_nonce_guard (rm : ReceivedMessage)
  (key salt nonce : bytes) (block : Block) (aesgcm : AEAD) :
  rEnvelopeVersion rm = 0 ->
  aes_NewCipher (fst (DeriveOneTimeKey key salt 0)) = inl block ->
  cipher_NewGCM block = inl aesgcm ->
  len nonce <> NonceSize aesgcm ->
  decryptSymmetric rm key salt nonce =
    (rm, Some (errors_New "Wrong AES nonce size")).
Proof.
  intros Hv Hb Hg Hn. unfold decryptSymmetric. rewrite Hv.
  change (DeriveOneTimeKey key salt 0)
    with (pbkdf2_Key key salt 16 aesKeyLength sha256_New, @None error) in *.
  cbn [fst] in Hb. cbv beta iota. rewrite Hb, Hg.
  destruct (Z.eqb_spec (len nonce) (NonceSize aesgcm)); [contradiction|].
  reflexivity.
Qed.

End Pipeline.

(** ** Wrapping, continued *)

Section WrapOutcomes.
Context {D : Domain} {E : Env}.

Lemma withDefaultTTL_fields (options : MessageParams) :
  Src (withDefaultTTL options) = Src options /\
  Dst (withDefaultTTL options) = Dst options /\
  KeySym (withDefaultTTL options) = KeySym options /\
  Topic (withDefaultTTL options) = Topic options.
Proof. unfold withDefaultTTL. now destruct (TTL options =? 0). Qed.

Lemma encryptAsymmetric_inv (self self' : SentMessage) (key : PublicKey)
  (err : option error) (w w' : World) :
  encryptAsymmetric self key w = Ok ((self', err), w') ->
  (err <> None /\ self' = self) \/
  (err = None /\ validatePublicKey key = true /\
   crypto_Encrypt key (Raw self) w = (Raw self', None, w')).
Proof.
  unfold encryptAsymmetric.
  destruct (validatePublicKey key); cbn [negb].
  2:{ unfold mret. intros [= <- <- <-]. left.
      split; [discriminate | reflexivity]. }
  destruct (crypto_Encrypt key (Raw self) w) as [[ct [e|]] w1].
  - intros [= <- <- <-]. left. split; [discriminate | reflexivity].
  - intros [= <- <- <-]. right. auto.
Qed.

(** X12: [Wrap] returns an envelope or an error, never both and never
    neither.  Whenever [Wrap] returns, either the envelope is nil and the
    error is not, or the error is nil and the envelope is not. *)
Theorem Wrap_envelope_or_error (self self' : SentMessage)
  (options : MessageParams) (w w' : World) (envelope : option Envelope)
  (err : option error) :
  Wrap self options w = Ok ((self', (envelope, err)), w') ->
  (envelope = None /\ err <> None) \/ (envelope <> None /\ err = None).
Proof.
  unfold Wrap. cbv zeta. unfold mbind at 1.
  destruct (match Src (withDefaultTTL options) with
            | Some src => lift (sign self src)
            | None => mret (self, None)
            end w) as [[[self1 [e1|]] w1]|]; [| |discriminate].
  { unfold mret. intros [= <- <- <- <-]. left.
    split; [reflexivity | discriminate]. }
  destruct (msgMaxLength <? len (Raw self1)).
  { unfold mret. intros [= <- <- <- <-]. left.
    split; [reflexivity | discriminate]. }
  assert (Hfinish : forall self2 salt nonce (e2 : option error) w2,
             match e2 with
             | None =>
                 (envelope <- call (NewEnvelope (TTL (withDefaultTTL options))
                                      (Topic (withDefaultTTL options))
                                      salt nonce self2);
                  envelope <- call (Envelope_Seal envelope
                                      (withDefaultTTL options));
                  mret (self2, (Some envelope, None)))%go
             | Some _ => mret (self2, (None, e2))
             end w2 = Ok ((self', (envelope, err)), w') ->
             (envelope = None /\ err <> None) \/
             (envelope <> None /\ err = None)).
  { intros self2 salt nonce [e2|] w2.
    - unfold mret. intros [= <- <- <- <-]. left.
      split; [reflexivity | discriminate].
    - unfold mbind, call, mret.
      destruct (NewEnvelope _ _ _ _ _ w2) as [e0 w3].
      destruct (Envelope_Seal e0 _ w3) as [sealed w4].
      intros [= <- <- <- <-]. right. split; [discriminate | reflexivity]. }
  unfold mbind at 1.
  destruct (Dst (withDefaultTTL options)) as [dst|].
  - unfold mbind at 1.
    destruct (encryptAsymmetric self1 dst w1) as [[[self2 e2] w2]|];
      [|discriminate].
    unfold mret at 1. apply Hfinish.
  - destruct (KeySym (withDefaultTTL options)) as [k|].
    + destruct (encryptSymmetric self1 k w1)
        as [[[self2 [[salt nonce] e2]] w2]|]; [|discriminate].
      apply Hfinish.
    + unfold mret at 1.
      apply (Hfinish self1 [] []
               (Some (errors_New
                  "Unable to encrypt the message: neither Dst nor Key")) w1).
Qed.

(** X13: a failed [Wrap] leaves no half-encrypted message.  Once the
    signing step has passed, with [Src] nil or [sign] returning no error,
    a [Wrap] that returns an error returns the message as the signing step
    left it: nothing has been encrypted. *)
Theorem Wrap_failure_keeps_message (self self1 self' : SentMessage)
  (options : MessageParams) (w w' : World) (envelope : option Envelope)
  (e : error) :
  match Src options with
  | Some src => sign self src = Ok (self1, None)
  | None => self1 = self
  end ->
  Wrap self options w = Ok ((self', (envelope, Some e)), w') ->
  self' = self1.
Proof.
  intros Hsign.
  destruct (withDefaultTTL_fields options) as (HSrc & HDst & HKey & _).
  unfold Wrap. cbv zeta. rewrite HSrc, HDst, HKey. unfold mbind at 1.
  assert (Hstep : match Src options with
                  | Some src => lift (sign self src)
                  | None => mret (self, None)
                  end w = Ok ((self1, None), w)).
  { destruct (Src options); [now rewrite Hsign | now subst]. }
  rewrite Hstep.
  destruct (msgMaxLength <? len (Raw self1)).
  { unfold mret. now intros [= <- _ _ _]. }
  unfold mbind at 1.
  destruct (Dst options) as [dst|].
  - unfold mbind at 1.
    destruct (encryptAsymmetric self1 dst w) as [[[self2 e2] w2]|] eqn:Hasym;
      [|discriminate].
    unfold mret at 1.
    destruct (encryptAsymmetric_inv _ _ _ _ _ _ Hasym)
      as [[Herr ->] | (-> & _)].
    + destruct e2; [|now contradiction Herr].
      unfold mret. now intros [= <- _ _ _].
    + unfold mbind, call, mret.
      destruct (NewEnvelope _ _ _ _ _ w2) as [e0 w3].
      destruct (Envelope_Seal e0 _ w3) as [sealed w4]. discriminate.
  - destruct (KeySym options) as [k|].
    + destruct (encryptSymmetric self1 k w)
        as [[[self2 [[salt nonce] e2]] w2]|] eqn:Hsym; [|discriminate].
      destruct (encryptSymmetric_inv _ _ _ _ _ _ _ _ Hsym)
        as [[Herr ->] | (-> & _)].
      * destruct e2; [|now contradiction Herr].
        unfold mret. now intros [= <- _ _ _].
      * unfold mbind, call, mret.
        destruct (NewEnvelope _ _ _ _ _ w2) as [e0 w3].
        destruct (Envelope_Seal e0 _ w3) as [sealed w4]. discriminate.
    + unfold mret. now intros [= <- _ _ _].
Qed.

(** X14: the size limit of [Wrap].  Once the signing step has passed, a
    message of more than [msgMaxLength] bytes is refused with "Oversized
    message", whatever the keys in the options: no envelope, no
    encryption, and no random bytes drawn. *)
Theorem Wrap_oversized (self self1 : SentMessage) (options : MessageParams)
  (w : World) :
  match Src options with
  | Some src => sign self src = Ok (self1, None)
  | None => self1 = self
  end ->
  msgMaxLength < len (Raw self1) ->
  Wrap self options w =
    Ok ((self1, (None, Some (errors_New "Oversized message"))), w).
Proof.
  intros Hsign Hbig.
  destruct (withDefaultTTL_fields options) as (HSrc & _).
  unfold Wrap. cbv zeta. rewrite HSrc. unfold mbind at 1.
  assert (Hstep : match Src options with
                  | Some src => lift (sign self src)
                  | None => mret (self, None)
                  end w = Ok ((self1, None), w)).
  { destruct (Src options); [now rewrite Hsign | now subst]. }
  rewrite Hstep.
  replace (msgMaxLength <? len (Raw self1)) with true
    by (symmetry; apply Z.ltb_lt; lia).
  reflexivity.
Qed.

(** X15: the envelope of the symmetric mode.  With [Dst] nil and a
    symmetric key, once the signing step has passed and the message is not
    oversized, a successful [encryptSymmetric] gives an envelope made from
    the sealed message with the salt and the nonce that
    [encryptSymmetric] returned, the TTL being the default when the
    options say 0. *)
Theorem Wrap_symmetric_envelope (self self1 sealed : SentMessage)
  (options : MessageParams) (key salt nonce : bytes) (w w1 : World) :
  Dst options = None ->
  KeySym options = Some key ->
  match Src options with
  | Some src => sign self src = Ok (self1, None)
  | None => self1 = self
  end ->
  len (Raw self1) <= msgMaxLength ->
  encryptSymmetric self1 key w = Ok ((sealed, (salt, nonce, None)), w1) ->
  let options' := withDefaultTTL options in
  let '(envelope, w2) :=
    NewEnvelope (if TTL options =? 0 then DefaultTTL else TTL options)
                (Topic options) salt nonce sealed w1 in
  let '(powed, w3) := Envelope_Seal envelope options' w2 in
  Wrap self options w = Ok ((sealed, (Some powed, None)), w3).
Proof.
  intros HD HK Hsign Hle Henc. cbv zeta.
  destruct (withDefaultTTL_fields options) as (HSrc & HDst & HKey & HTopic).
  assert (HTTL : TTL (withDefaultTTL options) =
                 if TTL options =? 0 then DefaultTTL else TTL options).
  { unfold withDefaultTTL. now destruct (TTL options =? 0). }
  rewrite <- HTTL, <- HTopic.
  destruct (NewEnvelope _ _ _ _ _ w1) as [envelope w2] eqn:Hnew.
  destruct (Envelope_Seal envelope _ w2) as [powed w3] eqn:Hseal.
  unfold Wrap. cbv zeta. rewrite HSrc, HDst, HKey, HD, HK. unfold mbind.
  assert (Hstep : match Src options with
                  | Some src => lift (sign self src)
                  | None => mret (self, None)
                  end w = Ok ((self1, None), w)).
  { destruct (Src options); [now rewrite Hsign | now subst]. }
  rewrite Hstep.
  replace (msgMaxLength <? len (Raw self1)) with false
    by (symmetry; apply Z.ltb_ge; lia).
  rewrite Henc. unfold mret, call. rewrite Hnew, Hseal. reflexivity.
Qed.

End WrapOutcomes.

Section WrapPlaintext.
Context {D : Domain} {E : Env}.

(** [sign] returns the nil error only with the message as it was. *)
Lemma sign_nil_error_keeps (self self1 : SentMessage) (key : PrivateKey) :
  sign self key = Ok (self1, None) -> self1 = self.
Proof.
  unfold sign.
  destruct (index (Raw self) 0) as [flags|]; cbn [obind]; [|discriminate].
  destruct (isMessageSigned flags); [now intros [= <-]|].
  destruct (crypto_Sign _ key) as [signature [e|]].
  - destruct (update_first _ _); cbn [obind]; discriminate.
  - now intros [= <-].
Qed.

(** X16: what [Wrap] encrypts.  Whenever [Wrap] returns an envelope, the
    plaintext that was encrypted is the [Raw] that [Wrap] was called on,
    byte for byte, also when [Src] is set: under [Dst] it is what
    [crypto.Encrypt] was given, and else what [encryptSymmetric] sealed
    under [KeySym].  No signature has been added to it. *)
Theorem Wrap_encrypts_message_as_given (self self' : SentMessage)
  (options : MessageParams) (w w' : World) (envelope : Envelope) :
  Wrap self options w = Ok ((self', (Some envelope, None)), w') ->
  match Dst options with
  | Some dst =>
      exists w1, crypto_Encrypt dst (Raw self) w = (Raw self', None, w1)
  | None =>
      exists key salt nonce w1,
        KeySym options = Some key /\
        encryptSymmetric self key w = Ok ((self', (salt, nonce, None)), w1)
  end.
Proof.
  destruct (withDefaultTTL_fields options) as (HSrc & HDst & HKey & _).
  unfold Wrap. cbv zeta. rewrite HSrc, HDst, HKey. unfold mbind at 1.
  assert (Hstep : forall r,
             match Src options with
             | Some src => lift (sign self src)
             | None => mret (self, None)
             end w = Ok r ->
             snd (fst r) <> None \/ r = ((self, None), w)).
  { intros [[self1 e1] w1]. destruct (Src options) as [src|].
    - unfold lift. destruct (sign self src) as [[s1 e]|] eqn:Hs;
        [|discriminate].
      intros [= -> -> ->]. destruct e1 as [e1|]; [left; discriminate|].
      right. now rewrite (sign_nil_error_keeps _ _ _ Hs).
    - unfold mret. intros [= <- <- <-]. now right. }
  destruct (match Src options with
            | Some src => lift (sign self src)
            | None => mret (self, None)
            end w) as [[[self1 e1] w1]|] eqn:Hsigned; [|discriminate].
  destruct (Hstep _ eq_refl) as [Herr | [= -> -> ->]].
  { cbn [fst snd] in Herr. destruct e1; [|now contradiction Herr].
    unfold mret. discriminate. }
  destruct (msgMaxLength <? len (Raw self)); [unfold mret; discriminate|].
  unfold mbind at 1.
  destruct (Dst options) as [dst|].
  - unfold mbind at 1.
    destruct (encryptAsymmetric self dst w) as [[[self2 e2] w2]|] eqn:Hasym;
      [|discriminate].
    unfold mret at 1.
    destruct (encryptAsymmetric_inv _ _ _ _ _ _ Hasym)
      as [[Herr ->] | (-> & _ & Henc)].
    + destruct e2; [|now contradiction Herr]. unfold mret. discriminate.
    + unfold mbind, call, mret.
      destruct (NewEnvelope _ _ _ _ _ w2) as [e0 w3].
      destruct (Envelope_Seal e0 _ w3) as [sealed w4].
      intros [= <- _ _]. now exists w2.
  - destruct (KeySym options) as [k|].
    + destruct (encryptSymmetric self k w)
        as [[[self2 [[salt nonce] e2]] w2]|] eqn:Hsym; [|discriminate].
      destruct e2 as [e2|]; [unfold mret; discriminate|].
      unfold mbind, call, mret.
      destruct (NewEnvelope _ _ _ _ _ w2) as [e0 w3].
      destruct (Envelope_Seal e0 _ w3) as [sealed w4].
      intros [= <- _ _]. now exists k, salt, nonce, w2.
    + unfold mret. discriminate.
Qed.

End WrapPlaintext.

(** * Runs on the reference environment *)

#[local] Existing Instance Ref.domain.
#[local] Existing Instance Ref.env.

(** The implementation of SHA-256 and PBKDF2 against published vectors:
    SHA-256 of "abc" (FIPS 180-4), and PBKDF2-HMAC-SHA-256 of "passwd" and
    "salt", one iteration, 64 bytes (RFC 7914, section 11). *)
Example SHA256_abc :
  map byte.unsigned (SHA256.sum (Ref.ascii_bytes "abc")) =
  [0xba; 0x78; 0x16; 0xbf; 0x8f; 0x01; 0xcf; 0xea;
   0x41; 0x41; 0x40; 0xde; 0x5d; 0xae; 0x22; 0x23;
   0xb0; 0x03; 0x61; 0xa3; 0x96; 0x17; 0x7a; 0x9c;
   0xb4; 0x10; 0xff; 0x61; 0xf2; 0x00; 0x15; 0xad].
Proof. vm_compute. reflexivity. Qed.

Example PBKDF2_rfc7914 :
  map byte.unsigned
      (PBKDF2.Key (Ref.ascii_bytes "passwd") (Ref.ascii_bytes "salt") 1 64) =
  [0x55; 0xac; 0x04; 0x6e; 0x56; 0xe3; 0x08; 0x9f;
   0xec; 0x16; 0x91; 0xc2; 0x25; 0x44; 0xb6; 0x05;
   0xf9; 0x41; 0x85; 0x21; 0x6d; 0xde; 0x04; 0x65;
   0xe6; 0x8b; 0x9d; 0x57; 0xc2; 0x0d; 0xac; 0xbc;
   0x49; 0xca; 0x9c; 0xcc; 0xf1; 0x79; 0xb6; 0x45;
   0x99; 0x16; 0x64; 0xb3; 0x9d; 0x77; 0xef; 0x31;
   0x7c; 0x71; 0xb8; 0x45; 0xb1; 0xe3; 0x0b; 0xd5;
   0x09; 0x11; 0x20; 0x41; 0xd3; 0xa1; 0x97; 0x83].
Proof. vm_compute. reflexivity. Qed.

(** PBKDF2-HMAC-SHA-256 of "password" and "salt", 4096 iterations. *)
Example PBKDF2_4096 :
  map byte.unsigned
      (PBKDF2.Key (Ref.ascii_bytes "password") (Ref.ascii_bytes "salt")
                  4096 32) =
  [0xc5; 0xe4; 0x78; 0xd5; 0x92; 0x88; 0xc8; 0x41;
   0xaa; 0x53; 0x0d; 0xb6; 0x84; 0x5c; 0x4c; 0x8d;
   0x96; 0x28; 0x93; 0xa0; 0x01; 0xce; 0x4e; 0x11;
   0xa4; 0x96; 0x38; 0x73; 0xaa; 0x98; 0x13; 0x4a].
Proof. vm_compute. reflexivity. Qed.

(** Scenario S1 of the spec: "hello" under a topic key arrives as sent,
    without signature and without sender. *)
Example S1_symmetric_delivery :
  Ref.deliver (Ref.params None None (Some Ref.key32) Ref.hello) None =
  Some (Ref.hello, [], None).
Proof. vm_compute. reflexivity. Qed.

(** Scenario S2: the same to the public key 9, opened with the private
    key 9, and not opened with the private key 5. *)
Example S2_asymmetric_delivery :
  Ref.deliver (Ref.params None (Some 9) None Ref.hello) (Some 9) =
    Some (Ref.hello, [], None) /\
  Ref.deliver (Ref.params None (Some 9) None Ref.hello) (Some 5) = None.
Proof. split; vm_compute; reflexivity. Qed.

(** Scenario S3, with the sender 7: the message arrives, but unsigned and
    without its sender, since [sign] appended nothing. *)
Example S3_signed_delivery_loses_sender :
  Ref.deliver (Ref.params (Some 7) (Some 9) None Ref.hello) (Some 9) =
  Some (Ref.hello, [], None).
Proof. vm_compute. reflexivity. Qed.

(** C1, a run: signer 7 signs successfully, and the message comes back
    without signature and without the signed flag. *)
Lemma sign_appends_only_on_failure_witness :
  let self := Ref.sent (Ref.params (Some 7) None (Some Ref.key32) Ref.hello) in
  exists flags rest signature,
    Raw self = flags :: rest /\
    isMessageSigned flags = false /\
    crypto_Sign (crypto_Keccak256 (Raw self)) 7
      = (signature, None) /\
    len signature = 65 /\
    sign (E := Ref.env) self 7 = Ok (self, None).
Proof.
  cbv zeta.
  set (self := Ref.sent _).
  exists (hd Byte.x00 (Raw self)), (tl (Raw self)),
         (Ref.signature_of (Ref.digest (Raw self)) 7).
  assert (H1 : Raw self = hd Byte.x00 (Raw self) :: tl (Raw self))
    by (vm_compute; reflexivity).
  assert (H2 : isMessageSigned (hd Byte.x00 (Raw self)) = false)
    by (vm_compute; reflexivity).
  assert (H3 : crypto_Sign (crypto_Keccak256 (Raw self)) 7
               = (Ref.signature_of (Ref.digest (Raw self)) 7, None))
    by (vm_compute; reflexivity).
  split; [exact H1|]. split; [exact H2|]. split; [exact H3|].
  split; [vm_compute; reflexivity|].
  exact (sign_appends_only_on_failure (E := Ref.env) self 7 _ _ _ None H1 H2 H3).
Defined.



(** C3, a run against the claim: on a 32-byte key and a 12-byte salt the
    key [DeriveOneTimeKey] returns is not the PBKDF2-HMAC-SHA-256
    derivation with 65536 iterations. *)
Lemma DeriveOneTimeKey_not_65536_iterations :
  DeriveOneTimeKey Ref.key32 Ref.salt12 0 <>
  (pbkdf2_Key Ref.key32 Ref.salt12 65536 32 sha256_New, None).
Proof. vm_compute. intros H. discriminate H. Qed.

(** C4, a run: a five-byte payload without signer gets a padding block,
    and the plaintext is 256 bytes long. *)
Lemma NewSentMessage_padding_law_witness :
  let params := Ref.params None None (Some Ref.key32) Ref.hello in
  exists flags padding w',
    NewSentMessage params Ref.w0 =
      Ok ({| Raw := flags :: padding ++ Ref.hello |}, w') /\
    padding <> [] /\
    (1 + len padding + 5 + 0) mod 256 = 0.
Proof.
  cbv zeta.
  destruct (NewSentMessage_padding_law
              (Ref.params None None (Some Ref.key32) Ref.hello) Ref.w0)
    as (flags & padding & w' & Hrun & _ & Hlaw & _).
  exists flags, padding, w'. split; [exact Hrun|].
  assert (Hne : padding <> []).
  { intros ->. vm_compute in Hrun. discriminate Hrun. }
  split; [exact Hne | exact (Hlaw Hne)].
Defined.

(** C10, a run: the same parameters, for which [total] is 6 and the pad
    size 250. *)
Lemma appendPadding_never_panics_witness :
  let params := Ref.params None None (Some Ref.key32) Ref.hello in
  (exists msg w',
     appendPadding {| Raw := [Byte.x88] |} params Ref.w0 = Ok (msg, w')) /\
  0 < Z.rem (padTotal params) (padChunkOf (padTotal params)) /\
  padChunkOf (padTotal params)
    - Z.rem (padTotal params) (padChunkOf (padTotal params)) <= 255.
Proof.
  cbv zeta.
  destruct (appendPadding_never_panics {| Raw := [Byte.x88] |}
              (Ref.params None None (Some Ref.key32) Ref.hello) Ref.w0)
    as [Hrun [_ Hsize]].
  assert (Hodd : 0 < Z.rem (padTotal (Ref.params None None (Some Ref.key32)
                                                  Ref.hello))
                           (padChunkOf (padTotal (Ref.params None None
                                          (Some Ref.key32) Ref.hello))))
    by (vm_compute; reflexivity).
  split; [exact Hrun|]. split; [exact Hodd | exact (Hsize Hodd)].
Defined.

(** C5, a run: the buffer [appendPadding] leaves for a five-byte payload,
    followed by the payload, read back by [extractPadding] up to its end;
    the padding length that comes back is 250. *)
Lemma padding_round_trip_witness :
  let params := Ref.params None None (Some Ref.key32) Ref.hello in
  exists msg w' rm',
    appendPadding {| Raw := [Byte.x88] |} params Ref.w0 = Ok (msg, w') /\
    len (Raw msg) = 251 /\
    extractPadding (Ref.received (Raw msg ++ Ref.hello) None Ref.key32) 256 =
      Ok (rm', (250, true)).
Proof.
  cbv zeta.
  destruct (appendPadding {| Raw := [Byte.x88] |}
              (Ref.params None None (Some Ref.key32) Ref.hello) Ref.w0)
    as [[msg w']|] eqn:Hrun.
  2:{ vm_compute in Hrun. discriminate Hrun. }
  assert (Hlen : len (Raw msg) = 251).
  { vm_compute in Hrun. injection Hrun as <- _. reflexivity. }
  assert (Hne : Raw msg <> [Byte.x88]).
  { intros Heq. rewrite Heq in Hlen. discriminate Hlen. }
  destruct (padding_round_trip Byte.x88 _ _ _ msg
              (Ref.received (Raw msg ++ Ref.hello) None Ref.key32)
              Ref.hello 256 eq_refl Hrun Hne eq_refl)
    as (flags & block & Hraw & Hsize & Hextract).
  { rewrite Hlen. discriminate. }
  cbv zeta in Hextract.
  assert (Hblock : len block = 250).
  { rewrite Hraw, len_cons in Hlen. lia. }
  rewrite Hblock in Hextract.
  exists msg, w'. eexists. split; [reflexivity|]. split; [exact Hlen|].
  exact Hextract.
Defined.

(** C6, a run: the decrypted buffer is the single byte 0x01, an unsigned
    message that announces a one-byte size field and ends there. *)
Lemma Validate_truncated_size_field_panics_witness :
  let rm := Ref.received [Byte.x01] None Ref.key32 in
  isMessageSigned Byte.x01 = false /\
  len (@nil byte) < byte.unsigned (byte.and Byte.x01 paddingMask) /\
  extractPadding rm 1 = Panic "slice bounds out of range" /\
  Validate rm = Panic "slice bounds out of range".
Proof.
  cbv zeta. split; [reflexivity|]. split; [reflexivity|].
  exact (Validate_truncated_size_field_panics
           (Ref.received [Byte.x01] None Ref.key32) Byte.x01 []
           eq_refl eq_refl eq_refl).
Defined.

(** C7, a run against the claim: [sign] on a message that carries its
    signature returns the nil error, so no error is surfaced. *)
Lemma sign_signed_message_returns_nil_error :
  sign Ref.signed_message 7 = Ok (Ref.signed_message, None) /\
  ~ (exists e, sign Ref.signed_message 7 = Ok (Ref.signed_message, Some e)).
Proof.
  assert (H : sign Ref.signed_message 7 = Ok (Ref.signed_message, None))
    by (vm_compute; reflexivity).
  split; [exact H|]. intros [e He]. rewrite H in He. clear H.
  revert He. generalize Ref.signed_message. intros m He. discriminate He.
Qed.

(** C7, a run of the amended statement. *)
Lemma sign_signed_message_is_noop_witness :
  Raw Ref.signed_message =
    Byte.x04 :: Ref.hello ++ Ref.signature_of (Ref.digest Ref.signed_body) 7 /\
  isMessageSigned Byte.x04 = true /\
  sign Ref.signed_message 7 = Ok (Ref.signed_message, None).
Proof.
  split; [reflexivity|]. split; [reflexivity|].
  exact (sign_signed_message_is_noop Ref.signed_message 7 Byte.x04 _
           eq_refl eq_refl).
Defined.

(** C8, a run: an unsigned, unpadded plaintext received under a topic key
    validates, and is symmetric and not asymmetric. *)
Lemma Validate_true_exactly_one_mode_witness :
  let rm := Ref.received Ref.plaintext None (Ref.digest Ref.key32) in
  exists rm',
    Validate rm = Ok (rm', true) /\
    symmetricMode rm' /\ ~ asymmetricMode rm'.
Proof.
  cbv zeta.
  set (rm := Ref.received Ref.plaintext None (Ref.digest Ref.key32)).
  assert (Hv : Validate rm = Ok (set_rPayload rm Ref.hello, true))
    by (vm_compute; reflexivity).
  exists (set_rPayload rm Ref.hello). split; [exact Hv|].
  destruct (Validate_true_exactly_one_mode _ _ Hv) as [[H | [_ H]] _].
  - exact H.
  - exfalso. apply H. reflexivity.
Defined.

(** C9, runs: a sealed message opens under the right key and [Raw] becomes
    the plaintext; under another key, and under a private key the
    ciphertext is not for, the error leaves the message as it was. *)
Lemma decrypt_atomic_on_failure_witness :
  let rm := Ref.received Ref.sealed None (Ref.digest Ref.key32) in
  let rma := Ref.received (Byte.x09 :: Ref.plaintext) (Some 9) common_Hash_zero in
  (exists rm',
     decryptSymmetric rm Ref.key32 Ref.salt12 Ref.nonce12 = (rm', None) /\
     rRaw rm' = Ref.plaintext) /\
  (exists e,
     decryptSymmetric rm Ref.hello Ref.salt12 Ref.nonce12 = (rm, Some e)) /\
  (exists e, decryptAsymmetric rma 5 = (rma, Some e)).
Proof.
  cbv zeta.
  set (rm := Ref.received Ref.sealed None (Ref.digest Ref.key32)).
  set (rma := Ref.received (Byte.x09 :: Ref.plaintext) (Some 9)
                           common_Hash_zero).
  pose proof (decrypt_atomic_on_failure rm Ref.key32 Ref.salt12 Ref.nonce12 5)
    as [Hgood _].
  pose proof (decrypt_atomic_on_failure rm Ref.hello Ref.salt12 Ref.nonce12 5)
    as [Hbad _].
  pose proof (decrypt_atomic_on_failure rma Ref.hello Ref.salt12 Ref.nonce12 5)
    as [_ Hasym].
  split; [|split].
  - destruct (decryptSymmetric rm Ref.key32 Ref.salt12 Ref.nonce12)
      as [rm' err] eqn:Hrun.
    assert (Herr : err = None).
    { vm_compute in Hrun. injection Hrun as _ <-. reflexivity. }
    subst err. exists rm'. split; [reflexivity|].
    destruct (Hgood rm' None eq_refl) as [_ Hraw].
    destruct (Hraw eq_refl) as (aesgcm & pt & _ & ->).
    vm_compute in Hrun. injection Hrun as <-. reflexivity.
  - destruct (decryptSymmetric rm Ref.hello Ref.salt12 Ref.nonce12)
      as [rm' [e|]] eqn:Hrun.
    + destruct (Hbad rm' (Some e) eq_refl) as [Hsame _].
      rewrite (Hsame ltac:(discriminate)). now exists e.
    + vm_compute in Hrun. discriminate Hrun.
  - destruct (decryptAsymmetric rma 5) as [rm' [e|]] eqn:Hrun.
    + destruct (Hasym rm' (Some e) eq_refl) as [Hsame _].
      rewrite (Hsame ltac:(discriminate)). now exists e.
    + vm_compute in Hrun. discriminate Hrun.
Defined.

(** * Runs of the further properties *)

(** X1, runs: the empty buffer, and two bytes marked signed. *)
Lemma Validate_short_input_witness :
  Validate (Ref.received [] None Ref.key32) =
    Ok (Ref.received [] None Ref.key32, false) /\
  Validate (Ref.received [Byte.x04; Byte.x00] None Ref.key32) =
    Ok (Ref.received [Byte.x04; Byte.x00] None Ref.key32, false).
Proof.
  split.
  - exact (proj1 (Validate_short_input (Ref.received [] None Ref.key32))
                 eq_refl).
  - exact (proj2 (Validate_short_input
                    (Ref.received [Byte.x04; Byte.x00] None Ref.key32))
                 Byte.x04 [Byte.x00] eq_refl eq_refl
                 ltac:(vm_compute; discriminate)).
Defined.

(** X2, a run: an unsigned, unpadded plaintext. *)
Lemma Validate_returns_witness :
  exists r,
    Validate (Ref.received Ref.plaintext None (Ref.digest Ref.key32)) = Ok r.
Proof.
  apply Validate_returns. intros flags body Hraw _.
  injection Hraw as <- <-. vm_compute. discriminate.
Defined.

(** X3, a run: 65 zero bytes in the place of the signature. *)
Lemma Validate_absorbs_recover_failure_witness :
  let rm := Ref.received Ref.forged (Some 9) common_Hash_zero in
  Validate rm =
    Ok (set_rSrc (set_rSignature rm (repeat Byte.x00 65)) None, false).
Proof.
  cbv zeta.
  exact (Validate_absorbs_recover_failure
           (Ref.received Ref.forged (Some 9) common_Hash_zero)
           Byte.x04 (Ref.hello ++ repeat Byte.x00 65) eq_refl eq_refl
           ltac:(vm_compute; reflexivity)
           ltac:(intros pub; vm_compute; discriminate)).
Defined.

(** X4, a run: the message signed by 7, received by 9. *)
Lemma Validate_signed_sender_witness :
  let rm := Ref.received (Raw Ref.signed_message) (Some 9) common_Hash_zero in
  exists rm' pub,
    Validate rm = Ok (rm', true) /\
    rSrc rm' = Some pub /\
    len (rSignature rm') = 65.
Proof.
  cbv zeta.
  set (rm := Ref.received (Raw Ref.signed_message) (Some 9) common_Hash_zero).
  set (signature := Ref.signature_of (Ref.digest Ref.signed_body) 7).
  assert (Hv : Validate rm =
               Ok (set_rPayload (set_rSrc (set_rSignature rm signature)
                                          (Some 7)) Ref.hello, true))
    by (vm_compute; reflexivity).
  destruct (Validate_signed_sender rm _ Byte.x04 (Ref.hello ++ signature)
              eq_refl eq_refl Hv) as (_ & _ & Hlen & pub & Hsrc & _).
  eexists _, pub. split; [exact Hv|]. split; [exact Hsrc | exact Hlen].
Defined.

(** X5, a run: the same message, cut into flags, payload and signature. *)
Lemma Validate_partitions_Raw_witness :
  let rm := Ref.received (Raw Ref.signed_message) (Some 9) common_Hash_zero in
  exists rm' flags field padding signature,
    Validate rm = Ok (rm', true) /\
    Raw Ref.signed_message =
      flags :: field ++ padding ++ rPayload rm' ++ signature /\
    rPayload rm' = Ref.hello.
Proof.
  cbv zeta.
  set (rm := Ref.received (Raw Ref.signed_message) (Some 9) common_Hash_zero).
  set (signature := Ref.signature_of (Ref.digest Ref.signed_body) 7).
  assert (Hv : Validate rm =
               Ok (set_rPayload (set_rSrc (set_rSignature rm signature)
                                          (Some 7)) Ref.hello, true))
    by (vm_compute; reflexivity).
  destruct (Validate_partitions_Raw rm _ Hv)
    as (flags & field & padding & sig & Hparts & _).
  eexists _, flags, field, padding, sig.
  split; [exact Hv|]. split; [exact Hparts | reflexivity].
Defined.

(** X6, a run: "hello" under a topic key. *)
Lemma NewSentMessage_Validate_round_trip_witness :
  exists msg w' rm',
    NewSentMessage Ref.sym_params Ref.w0 = Ok (msg, w') /\
    Validate (Ref.received (Raw msg) None (Ref.digest Ref.key32)) =
      Ok (rm', true) /\
    rPayload rm' = Ref.hello.
Proof.
  destruct (NewSentMessage_Validate_round_trip Ref.sym_params Ref.w0)
    as (msg & w' & Hrun & Hv).
  destruct (Hv (Ref.received (Raw msg) None (Ref.digest Ref.key32)) eq_refl)
    as (rm' & Hval & Hpay & _).
  exists msg, w', rm'. split; [exact Hrun|]. split; [|exact Hpay].
  rewrite Hval. reflexivity.
Defined.

(** X7, a run: the three bytes "pad" supplied for a block of 250. *)
Lemma supplied_padding_round_trip_witness :
  exists msg w' rm' ok,
    NewSentMessage Ref.padded_params Ref.w0 = Ok (msg, w') /\
    Validate (Ref.received (Raw msg) None (Ref.digest Ref.key32)) =
      Ok (rm', ok) /\
    len (rPadding rm') = 249 /\
    firstn 3 (rPadding rm') = Ref.ascii_bytes "pad".
Proof.
  destruct (supplied_padding_round_trip Ref.padded_params
              (Ref.ascii_bytes "pad") Ref.w0 eq_refl
              ltac:(vm_compute; reflexivity))
    as (msg & w' & Hrun & Hv).
  destruct (Hv (Ref.received (Raw msg) None (Ref.digest Ref.key32)) eq_refl)
    as (rm' & ok & Hval & Hlen & Hpre).
  exists msg, w', rm', ok.
  split; [exact Hrun|]. split; [exact Hval|]. split; [exact Hlen | exact Hpre].
Defined.

(** X8, runs: sealing "hello" under the topic key, and under the empty
    key, which is refused. *)
Lemma encryptSymmetric_outcome_witness :
  let msg := Ref.sent Ref.sym_params in
  let w := Ref.sent_world Ref.sym_params in
  (exists sealed salt nonce w',
     encryptSymmetric msg Ref.key32 w =
       Ok ((sealed, (salt, nonce, None)), w') /\
     len salt = saltLength /\
     len (Raw sealed) = len (Raw msg) + 16) /\
  (exists salt nonce e w',
     encryptSymmetric msg [] w = Ok ((msg, (salt, nonce, Some e)), w')).
Proof.
  cbv zeta. split.
  - destruct (encryptSymmetric (D := Ref.domain) (Ref.sent Ref.sym_params) Ref.key32
                (Ref.sent_world Ref.sym_params))
      as [[[sealed [[salt nonce] err]] w']|] eqn:Hrun.
    2:{ vm_compute in Hrun. discriminate Hrun. }
    assert (Herr : err = None)
      by (vm_compute in Hrun; injection Hrun as _ _ _ <- _; reflexivity).
    subst err.
    destruct (proj2 (encryptSymmetric_outcome _ _ _ _ _ _ _ _ Hrun) eq_refl)
      as (_ & Hsalt & _).
    exists sealed, salt, nonce, w'.
    split; [reflexivity|]. split; [exact Hsalt|].
    vm_compute in Hrun. injection Hrun as <- _ _ _. reflexivity.
  - destruct (encryptSymmetric (D := Ref.domain) (Ref.sent Ref.sym_params) []
                (Ref.sent_world Ref.sym_params))
      as [[[sealed [[salt nonce] [e|]]] w']|] eqn:Hrun.
    + rewrite (proj1 (encryptSymmetric_outcome _ _ _ _ _ _ _ _ Hrun)
                 ltac:(discriminate)).
      now exists salt, nonce, e, w'.
    + vm_compute in Hrun. discriminate Hrun.
    + vm_compute in Hrun. discriminate Hrun.
Defined.


(** X10, a run: an envelope of version 1. *)
Lemma decryptSymmetric_version_guard_witness :
  let rm := set_rRaw (Ref.received Ref.sealed None (Ref.digest Ref.key32))
                     Ref.sealed in
  let rm1 :=
    {| rRaw := rRaw rm; rPayload := []; rPadding := []; rSignature := [];
       rPoW := 0; rSent := 0; rTTL := 10; rSrc := None; rDst := None;
       rTopic := rTopic rm; rTopicKeyHash := rTopicKeyHash rm;
       rEnvelopeHash := common_Hash_zero; rEnvelopeVersion := 1 |} in
  decryptSymmetric rm1 Ref.key32 Ref.salt12 Ref.nonce12 =
    (rm1, Some (fmt_Errorf "DeriveKey: invalid envelope version: %d" [1])).
Proof.
  cbv zeta.
  apply decryptSymmetric_version_guard. discriminate.
Defined.

(** X11, a run: a nonce of five bytes for a cipher that asks for twelve. *)
Lemma decryptSymmetric_nonce_guard_witness :
  let rm := Ref.received Ref.sealed None (Ref.digest Ref.key32) in
  decryptSymmetric rm Ref.key32 Ref.salt12 Ref.hello =
    (rm, Some (errors_New "Wrong AES nonce size")).
Proof.
  cbv zeta.
  apply (decryptSymmetric_nonce_guard
           (Ref.received Ref.sealed None (Ref.digest Ref.key32))
           Ref.key32 Ref.salt12 Ref.hello
           (PBKDF2.Key Ref.key32 Ref.salt12 16 32)
           (PBKDF2.Key Ref.key32 Ref.salt12 16 32)).
  - reflexivity.
  - vm_compute. reflexivity.
  - reflexivity.
  - vm_compute. discriminate.
Defined.

(** X12, runs: [Wrap] under a topic key, which gives an envelope, and
    without any key, which gives an error. *)
Lemma Wrap_envelope_or_error_witness :
  let neither := Ref.params None None None Ref.hello in
  (exists self' envelope w',
     Wrap (Ref.sent Ref.sym_params) Ref.sym_params
          (Ref.sent_world Ref.sym_params) =
       Ok ((self', (Some envelope, None)), w')) /\
  (exists self' e w',
     Wrap (Ref.sent neither) neither (Ref.sent_world neither) =
       Ok ((self', (None, Some e)), w')).
Proof.
  cbv zeta. split.
  - destruct (Wrap (D := Ref.domain) (Ref.sent Ref.sym_params) Ref.sym_params
                (Ref.sent_world Ref.sym_params))
      as [[[self' [envelope err]] w']|] eqn:Hrun.
    2:{ vm_compute in Hrun. discriminate Hrun. }
    destruct (Wrap_envelope_or_error _ _ _ _ _ _ _ Hrun)
      as [[-> Herr] | [Henv ->]].
    + exfalso. vm_compute in Hrun. discriminate Hrun.
    + destruct envelope as [envelope|]; [|now contradiction Henv].
      now exists self', envelope, w'.
  - destruct (Wrap (D := Ref.domain)
                (Ref.sent (Ref.params None None None Ref.hello))
                (Ref.params None None None Ref.hello)
                (Ref.sent_world (Ref.params None None None Ref.hello)))
      as [[[self' [envelope err]] w']|] eqn:Hrun.
    2:{ vm_compute in Hrun. discriminate Hrun. }
    destruct (Wrap_envelope_or_error _ _ _ _ _ _ _ Hrun)
      as [[-> Herr] | [Henv ->]].
    + destruct err as [e|]; [|now contradiction Herr].
      now exists self', e, w'.
    + exfalso. vm_compute in Hrun. discriminate Hrun.
Defined.

(** X13, a run: [Wrap] to the invalid public key 0 comes back with the
    plaintext as built. *)
Lemma Wrap_failure_keeps_message_witness :
  let p := Ref.params None (Some 0) None Ref.hello in
  exists e w',
    Wrap (Ref.sent p) p (Ref.sent_world p) =
      Ok ((Ref.sent p, (None, Some e)), w').
Proof.
  cbv zeta.
  destruct (Wrap (D := Ref.domain)
              (Ref.sent (Ref.params None (Some 0) None Ref.hello))
              (Ref.params None (Some 0) None Ref.hello)
              (Ref.sent_world (Ref.params None (Some 0) None Ref.hello)))
    as [[[self' [envelope [e|]]] w']|] eqn:Hrun.
  - rewrite (Wrap_failure_keeps_message
               (Ref.sent (Ref.params None (Some 0) None Ref.hello))
               (Ref.sent (Ref.params None (Some 0) None Ref.hello)) self'
               (Ref.params None (Some 0) None Ref.hello)
               _ _ _ _ eq_refl Hrun) in Hrun |- *.
    destruct envelope as [envelope|].
    + exfalso. vm_compute in Hrun. discriminate Hrun.
    + now exists e, w'.
  - exfalso. vm_compute in Hrun. discriminate Hrun.
  - exfalso. vm_compute in Hrun. discriminate Hrun.
Defined.

(** X14, a run: a message of [msgMaxLength + 1] bytes, under a topic
    key. *)
Lemma Wrap_oversized_witness :
  Wrap Ref.oversized Ref.sym_params Ref.w0 =
    Ok ((Ref.oversized, (None, Some (errors_New "Oversized message"))),
        Ref.w0).
Proof.
  apply (Wrap_oversized Ref.oversized Ref.oversized Ref.sym_params Ref.w0).
  - reflexivity.
  - vm_compute. reflexivity.
Defined.

(** X15, a run: the envelope for "hello" under the topic key. *)
Lemma Wrap_symmetric_envelope_witness :
  let msg := Ref.sent Ref.sym_params in
  let w := Ref.sent_world Ref.sym_params in
  exists sealed salt nonce w1 envelope w2,
    encryptSymmetric msg Ref.key32 w =
      Ok ((sealed, (salt, nonce, None)), w1) /\
    Wrap msg Ref.sym_params w = Ok ((sealed, (Some envelope, None)), w2) /\
    Ref.Salt envelope = salt /\ Ref.AESNonce envelope = nonce /\
    Ref.Data envelope = Raw sealed.
Proof.
  cbv zeta.
  destruct (encryptSymmetric (D := Ref.domain) (Ref.sent Ref.sym_params)
              Ref.key32 (Ref.sent_world Ref.sym_params))
    as [[[sealed [[salt nonce] err]] w1]|] eqn:Hrun.
  2:{ vm_compute in Hrun. discriminate Hrun. }
  assert (Herr : err = None)
    by (vm_compute in Hrun; injection Hrun as _ _ _ <- _; reflexivity).
  subst err.
  pose proof (Wrap_symmetric_envelope
                (Ref.sent Ref.sym_params) (Ref.sent Ref.sym_params) sealed
                Ref.sym_params Ref.key32 salt nonce
                (Ref.sent_world Ref.sym_params) w1
                eq_refl eq_refl eq_refl
                ltac:(vm_compute; discriminate) Hrun) as Hwrap.
  cbv zeta in Hwrap.
  destruct (NewEnvelope _ _ _ _ _ _) as [envelope w2] eqn:Hnew.
  destruct (Envelope_Seal _ _ _) as [powed w3] eqn:Hseal.
  exists sealed, salt, nonce, w1, powed, w3.
  split; [reflexivity|]. split; [exact Hwrap|].
  injection Hseal as <- _. injection Hnew as <- _. cbn. auto.
Defined.

(** X16, a run: [Wrap] with the signer 7 to the public key 9 hands
    [crypto.Encrypt] the plaintext as built. *)
Lemma Wrap_encrypts_message_as_given_witness :
  let p := Ref.params (Some 7) (Some 9) None Ref.hello in
  exists self' envelope w' w1,
    Wrap (Ref.sent p) p (Ref.sent_world p) =
      Ok ((self', (Some envelope, None)), w') /\
    crypto_Encrypt 9 (Raw (Ref.sent p)) (Ref.sent_world p) =
      (Raw self', None, w1).
Proof.
  cbv zeta.
  destruct (Wrap (D := Ref.domain)
              (Ref.sent (Ref.params (Some 7) (Some 9) None Ref.hello))
              (Ref.params (Some 7) (Some 9) None Ref.hello)
              (Ref.sent_world (Ref.params (Some 7) (Some 9) None Ref.hello)))
    as [[[self' [[envelope|] [e|]]] w']|] eqn:Hrun.
  - exfalso. vm_compute in Hrun. discriminate Hrun.
  - pose proof (Wrap_encrypts_message_as_given _ _ _ _ _ _ Hrun) as Hgiven.
    cbn [Dst Ref.params] in Hgiven. destruct Hgiven as [w1 Henc].
    exists self', envelope, w', w1. split; [reflexivity | exact Henc].
  - exfalso. vm_compute in Hrun. discriminate Hrun.
  - exfalso. vm_compute in Hrun. discriminate Hrun.
  - exfalso. vm_compute in Hrun. discriminate Hrun.
Defined.
